(** * The multi-instance log viewer (scripts/multi_instance_log_viewer.py)

    A shallow embedding of the viewer and the properties its specification
    states about it.

    Conventions of the model.
    - Python [int] is [Z]; [str] is [string]; a [dict] is a [gmap]; a [list]
      is a [list].
    - Exceptions are explicit: a fallible computation returns a [result],
      and [try ... except] is the combinator [try_except] with the list of
      exception classes the handler names.
    - The operating system is a [world]: a file system and a process table.
      The viewer never writes to either; each loop iteration observes one
      snapshot, and successive iterations may observe different snapshots
      (the watched programs keep writing).
    - A file holds bytes, and the viewer opens every file in text mode.  A
      byte of a file and a character of a [str] are both an [ascii] here:
      a read gives one character for each byte, which is what text mode does
      with ASCII bytes in every encoding that extends ASCII, and it turns
      the line ends CR LF and CR into LF as text mode does
      ([universal_newlines]).  Offsets into files ([seek], [tell]) count
      bytes; [len] of a text counts characters.
    - Outside the model: what text mode does with bytes beyond ASCII (one
      character for several bytes, or a UnicodeDecodeError), a NUL character
      handed to curses (a ValueError of [addstr]), and a terminal that
      cannot hide its cursor ([curses.curs_set]).  None of these has a
      handler in the viewer.  The statements below that tell which text is
      read from a file or drawn on the screen say so in their hypotheses
      ([is_ascii], [plain_text], [no_NUL]). *)

From Stdlib Require Import ZArith String Ascii List Bool Lia DecimalString.
From stdpp Require Import base gmap strings list.

Local Open Scope string_scope.
Local Open Scope Z_scope.

(** ** Exceptions and results *)

Inductive exn : Type :=
| OSError          (* FileNotFoundError, PermissionError, ProcessLookupError, ... *)
| ValueError
| OverflowError
| KeyError
| curses_error.

Definition exn_eqb (a b : exn) : bool :=
  match a, b with
  | OSError, OSError | ValueError, ValueError | OverflowError, OverflowError
  | KeyError, KeyError | curses_error, curses_error => true
  | _, _ => false
  end.

Inductive result (A : Type) : Type :=
| Ok (a : A)
| Raise (e : exn).
Arguments Ok {A} a.
Arguments Raise {A} e.

Definition bind {A B : Type} (m : result A) (k : A -> result B) : result B :=
  match m with
  | Ok a => k a
  | Raise e => Raise e
  end.

Notation "'do' x <- m ;; k" := (bind m (fun x => k))
  (at level 10, x name, m at level 99, k at level 200).

(** [try: m  except classes: handler]. *)
Definition try_except {A : Type} (m : result A) (classes : list exn)
    (handler : result A) : result A :=
  match m with
  | Ok a => Ok a
  | Raise e => if existsb (exn_eqb e) classes then handler else Raise e
  end.

Fixpoint mapM {A B : Type} (f : A -> result B) (l : list A) : result (list B) :=
  match l with
  | [] => Ok []
  | a :: l' => do b <- f a ;; do bs <- mapM f l' ;; Ok (b :: bs)
  end.

(** ** Strings *)

Definition LF : ascii := ascii_of_nat 10.
Definition CR : ascii := ascii_of_nat 13.
Definition chr (c : ascii) : string := String c EmptyString.

Definition len (s : string) : Z := Z.of_nat (String.length s).

Fixpoint str_take (n : nat) (s : string) : string :=
  match n, s with
  | O, _ => ""
  | S _, EmptyString => ""
  | S n', String c s' => String c (str_take n' s')
  end.

Fixpoint str_drop (n : nat) (s : string) : string :=
  match n, s with
  | O, _ => s
  | S _, EmptyString => ""
  | S n', String _ s' => str_drop n' s'
  end.

(** [s[:stop]] with Python's treatment of a negative bound. *)
Definition slice_to (s : string) (stop : Z) : string :=
  if stop <? 0 then str_take (Z.to_nat (len s + stop)) s
  else str_take (Z.to_nat stop) s.

(** [l[start:]] on a list, with Python's treatment of a negative bound. *)
Definition slice_from {A : Type} (l : list A) (start : Z) : list A :=
  if start <? 0 then drop (Z.to_nat (Z.of_nat (length l) + start)) l
  else drop (Z.to_nat start) l.

Definition is_empty (s : string) : bool :=
  match s with EmptyString => true | _ => false end.

(** [str.isspace] and [str.isdigit] on one ASCII character. *)
Definition is_space (c : ascii) : bool :=
  let n := nat_of_ascii c in
  ((9 <=? n) && (n <=? 13) || (28 <=? n) && (n <=? 32))%nat.

Definition is_digit (c : ascii) : bool :=
  let n := nat_of_ascii c in ((48 <=? n) && (n <=? 57))%nat.

Fixpoint lstrip (s : string) : string :=
  match s with
  | String c s' => if is_space c then lstrip s' else s
  | EmptyString => ""
  end.

Fixpoint rstrip_by (p : ascii -> bool) (s : string) : string :=
  match s with
  | EmptyString => ""
  | String c s' =>
      match rstrip_by p s' with
      | EmptyString => if p c then "" else chr c
      | r => String c r
      end
  end.

(** [s.strip()] *)
Definition strip (s : string) : string := rstrip_by is_space (lstrip s).

(** [s.rstrip("\n\r")] *)
Definition rstrip_newlines (s : string) : string :=
  rstrip_by (fun c => Ascii.eqb c LF || Ascii.eqb c CR) s.

Fixpoint all_digits (s : string) : bool :=
  match s with
  | EmptyString => true
  | String c s' => is_digit c && all_digits s'
  end.

(** [s.isdigit()]: at least one character, and all of them digits. *)
Definition isdigit (s : string) : bool := negb (is_empty s) && all_digits s.

Fixpoint digits_value (acc : Z) (s : string) : Z :=
  match s with
  | EmptyString => acc
  | String c s' => digits_value (10 * acc + (Z.of_nat (nat_of_ascii c) - 48)) s'
  end.

(** [int(s)], on the strings the viewer passes to it (outputs of [strip]):
    a string of decimal digits is its value, anything else it is handed is
    refused with ValueError. *)
Definition py_int (s : string) : result Z :=
  if isdigit s then Ok (digits_value 0 s) else Raise ValueError.

(** [str(n)] / [format] of an integer. *)
Definition str_of_int (n : Z) : string := NilZero.string_of_int (Z.to_int n).

(** Iterating over a text file: the lines, each with its line feed. *)
Fixpoint file_lines (s : string) : list string :=
  match s with
  | EmptyString => []
  | String c s' =>
      if Ascii.eqb c LF then chr c :: file_lines s'
      else match file_lines s' with
           | [] => [chr c]
           | l :: ls => String c l :: ls
           end
  end.

(** Line boundaries of [str.splitlines] among ASCII characters:
    LF, VT, FF, CR, FS, GS, RS (CR LF counts as one boundary). *)
Definition is_linebreak (c : ascii) : bool :=
  let n := nat_of_ascii c in
  ((10 <=? n) && (n <=? 13) || (28 <=? n) && (n <=? 30))%nat.

(** [s.splitlines(keepends=True)] *)
Fixpoint splitlines (s : string) : list string :=
  match s with
  | EmptyString => []
  | String c s' =>
      if Ascii.eqb c CR then
        match s' with
        | String c' s'' =>
            if Ascii.eqb c' LF then String c (chr c') :: splitlines s''
            else chr c :: splitlines s'
        | EmptyString => [chr c]
        end
      else if is_linebreak c then chr c :: splitlines s'
      else match splitlines s' with
           | [] => [chr c]
           | l :: ls => String c l :: ls
           end
  end.

(** What reading in text mode makes of the line ends: CR LF and a CR alone
    both become LF. *)
Fixpoint universal_newlines (s : string) : string :=
  match s with
  | EmptyString => ""
  | String c s' =>
      if Ascii.eqb c CR then
        match s' with
        | String c' s'' =>
            if Ascii.eqb c' LF then String LF (universal_newlines s'')
            else String LF (universal_newlines s')
        | EmptyString => chr LF
        end
      else String c (universal_newlines s')
  end.

Definition startswith_slash (s : string) : bool :=
  match s with String c _ => Ascii.eqb c "/"%char | EmptyString => false end.

Fixpoint endswith_slash (s : string) : bool :=
  match s with
  | EmptyString => false
  | String c EmptyString => Ascii.eqb c "/"%char
  | String _ s' => endswith_slash s'
  end.

(** [os.path.join(a, b)] (POSIX). *)
Definition os_path_join (a b : string) : string :=
  if startswith_slash b then b
  else if is_empty a || endswith_slash a then a +:+ b
  else a +:+ "/" +:+ b.

(** ** The operating system seen by the viewer *)

(** How a regular file answers [open] and [read]. *)
Inductive file_access : Type :=
| Readable
| OpenFails      (* open() raises OSError: no permission, or removed meanwhile *)
| ReadFails.     (* open() succeeds, seek/read/tell raises OSError *)

Inductive node : Type :=
| Regular (content : string) (access : file_access)
| Directory.

(** What signal 0 sent to a process id finds. *)
Inductive probe : Type :=
| Alive            (* the call succeeds *)
| NoSuchProcess    (* ProcessLookupError *)
| NotPermitted.    (* PermissionError *)

Record world : Type := {
  w_fs : gmap string node;
  w_procs : Z -> probe;
  w_stdout_broken : bool    (* a write to standard output fails: nobody reads the pipe any more *)
}.

(** [os.path.isfile], [os.path.isdir] *)
Definition os_path_isfile (w : world) (path : string) : bool :=
  match w_fs w !! path with Some (Regular _ _) => true | _ => false end.

Definition os_path_isdir (w : world) (path : string) : bool :=
  match w_fs w !! path with Some Directory => true | _ => false end.

(** [with open(path) as f: f.seek(position); data = f.read(); f.tell()]:
    the text of the bytes from [position] to the end of the file, and the
    byte position reached.  A seek beyond the end is allowed, reads nothing
    and stays where it is.  The bytes read are taken to be ASCII
    ([is_ascii]); on others the real read gives fewer characters than bytes
    or raises UnicodeDecodeError. *)
Definition open_seek_read (w : world) (path : string) (position : Z)
    : result (string * Z) :=
  match w_fs w !! path with
  | Some (Regular content Readable) =>
      if position <? 0 then Raise ValueError      (* negative seek position *)
      else Ok (universal_newlines (str_drop (Z.to_nat position) content),
               Z.max position (len content))
  | Some (Regular _ OpenFails) | Some (Regular _ ReadFails) => Raise OSError
  | Some Directory => Raise OSError      (* IsADirectoryError *)
  | None => Raise OSError                (* FileNotFoundError *)
  end.

(** The largest value of a C [int], the type of a process id. *)
Definition INT_MAX : Z := 2147483647.

(** [os.kill(pid, 0)]: the process id is converted to a C [int] first, and
    Python refuses with OverflowError an integer that does not fit. *)
Definition os_kill0 (w : world) (pid : Z) : result unit :=
  if (INT_MAX <? pid) || (pid <? - INT_MAX - 1) then Raise OverflowError
  else match w_procs w pid with
       | Alive => Ok tt
       | NoSuchProcess | NotPermitted => Raise OSError
       end.

(** ** Liveness monitor *)

Definition _process_exists (w : world) (pid : Z) : result bool :=
  try_except (do _ <- os_kill0 w pid ;; Ok true) [OSError] (Ok false).

Definition count_true (l : list bool) : Z :=
  Z.of_nat (length (List.filter (fun b => b) l)).

Definition count_running (w : world) (pids_file : string) : result Z :=
  if is_empty pids_file || negb (os_path_isfile w pids_file) then Ok 0
  else
    try_except
      (do f <- open_seek_read w pids_file 0 ;;
       do pids <- mapM py_int
                    (List.filter isdigit (map strip (file_lines (fst f)))) ;;
       do alive <- mapM (_process_exists w) pids ;;
       Ok (count_true alive))
      [ValueError; OSError]
      (Ok 0).

(** ** Incremental reader *)

Definition read_new_lines (w : world) (path : string) (position : Z)
    : result (string * Z) :=
  if negb (os_path_isfile w path) then Ok ("", position)
  else try_except (open_seek_read w path position) [OSError] (Ok ("", position)).

(** ** The curses window *)

(** The window keeps, for every row that was written since it was last
    cleared, the text handed to [addstr] at column 0 and whether it was
    written in reverse video; [w_reverse] is the attribute currently on. *)
Record window : Type := {
  w_rows : gmap Z (string * bool);
  w_reverse : bool
}.

Definition blank_window : window := {| w_rows := ∅; w_reverse := false |}.

Definition attron_reverse (scr : window) : window :=
  {| w_rows := w_rows scr; w_reverse := true |}.

Definition attroff_reverse (scr : window) : window :=
  {| w_rows := w_rows scr; w_reverse := false |}.

(** [stdscr.move(r, 0); stdscr.clrtoeol()] *)
Definition clear_row (scr : window) (r : Z) : window :=
  {| w_rows := delete r (w_rows scr); w_reverse := w_reverse scr |}.

Fixpoint has_LF (s : string) : bool :=
  match s with
  | EmptyString => false
  | String c s' => Ascii.eqb c LF || has_LF s'
  end.

(** [stdscr.addstr(r, 0, text)] on a window of [height] by [width] cells.
    curses refuses a row outside the window, and reports an error when the
    cursor is driven off the last row (by a line feed or by filling the last
    cell); what was written up to then stays on the screen.  The second
    component tells whether curses.error is raised.  The text is taken to
    hold no NUL character ([no_NUL]); for one the real [addstr] raises a
    ValueError instead. *)
Definition addstr (height width : Z) (scr : window) (r : Z) (text : string)
    : window * bool :=
  if (r <? 0) || (height <=? r) then (scr, true)
  else
    ({| w_rows := <[r := (text, w_reverse scr)]> (w_rows scr);
        w_reverse := w_reverse scr |},
     (r =? height - 1) && (has_LF text || (width <=? len text))).

(** ** The interactive viewer *)

(** What [main] hands to the viewer, and the size of the terminal. *)
Record config : Type := {
  log_dir : string;
  count : Z;
  pids_file : string;
  height : Z;
  width : Z
}.

(** The local variables of [run_curses] that change while it runs, and the
    window. *)
Record viewer : Type := {
  instance_buffers : gmap Z (list string);
  current : Z;
  file_positions : gmap Z Z;
  status_redraw_counter : Z;
  stdscr : window
}.

Definition set_buffers (st : viewer) (b : gmap Z (list string)) : viewer :=
  {| instance_buffers := b; current := current st;
     file_positions := file_positions st;
     status_redraw_counter := status_redraw_counter st; stdscr := stdscr st |}.

Definition set_current (st : viewer) (c : Z) : viewer :=
  {| instance_buffers := instance_buffers st; current := c;
     file_positions := file_positions st;
     status_redraw_counter := status_redraw_counter st; stdscr := stdscr st |}.

Definition set_positions (st : viewer) (p : gmap Z Z) : viewer :=
  {| instance_buffers := instance_buffers st; current := current st;
     file_positions := p;
     status_redraw_counter := status_redraw_counter st; stdscr := stdscr st |}.

Definition set_counter (st : viewer) (n : Z) : viewer :=
  {| instance_buffers := instance_buffers st; current := current st;
     file_positions := file_positions st;
     status_redraw_counter := n; stdscr := stdscr st |}.

Definition set_stdscr (st : viewer) (scr : window) : viewer :=
  {| instance_buffers := instance_buffers st; current := current st;
     file_positions := file_positions st;
     status_redraw_counter := status_redraw_counter st; stdscr := scr |}.

(** [d[k]] on a dict: KeyError when the key is missing. *)
Definition getitem {V : Type} (d : gmap Z V) (k : Z) : result V :=
  match d !! k with
  | Some v => Ok v
  | None => Raise KeyError
  end.

(** [STATUS_BAR_FORMAT.format(running=..., total=..., stopped=...,
    watching=..., max_key=...)] *)
Definition STATUS_BAR_FORMAT (running total stopped watching max_key : Z)
    : string :=
  " [ Instances: " +:+ str_of_int running +:+ "/" +:+ str_of_int total
  +:+ " running, " +:+ str_of_int stopped +:+ " stopped | "
  +:+ "Watching: Instance " +:+ str_of_int watching +:+ " | Keys: 1-"
  +:+ str_of_int max_key +:+ " switch, q quit ] ".

(** [os.path.join(log_dir, f"instance_{instance}.log")] *)
Definition log_path (cfg : config) (instance : Z) : string :=
  os_path_join (log_dir cfg) ("instance_" +:+ str_of_int instance +:+ ".log").

Definition log_start_row : Z := 1.
Definition log_height (cfg : config) : Z := height cfg - 1.

Definition draw_status_bar (cfg : config) (w : world) (st : viewer)
    : result viewer :=
  do running <- count_running w (pids_file cfg) ;;
  let stopped := count cfg - running in
  let line :=
    STATUS_BAR_FORMAT running (count cfg) stopped (current st) (count cfg) in
  let scr := attron_reverse (stdscr st) in
  let scr := clear_row scr 0 in
  let '(scr, failed) :=
    addstr (height cfg) (width cfg) scr 0 (slice_to line (width cfg - 1)) in
  if failed then Raise curses_error
  else Ok (set_stdscr st (attroff_reverse scr)).

(** The lines [draw_log] shows. *)
Definition visible (cfg : config) (buf : list string) : list string :=
  if Z.of_nat (length buf) >? log_height cfg
  then slice_from buf (- log_height cfg)
  else buf.

(** [for r in range(log_start_row, height): move(r, 0); clrtoeol()] *)
Definition clear_log_rows (cfg : config) (scr : window) : window :=
  fold_left clear_row
    (map (fun i => log_start_row + Z.of_nat i)
         (seq 0 (Z.to_nat (height cfg - log_start_row))))
    scr.

(** [for i, line in enumerate(visible): ...]; once the row leaves the
    window the loop is left, and an error of [addstr] is passed over. *)
Fixpoint write_lines (cfg : config) (i : Z) (lines : list string)
    (scr : window) : window :=
  match lines with
  | [] => scr
  | line :: rest =>
      let row := log_start_row + i in
      if row >=? height cfg then scr
      else
        let text :=
          slice_to (rstrip_newlines line +:+ chr LF) (width cfg - 1) in
        write_lines cfg (i + 1) rest
          (fst (addstr (height cfg) (width cfg) scr row text))
  end.

Definition draw_log (cfg : config) (buf : list string) (st : viewer)
    : viewer :=
  set_stdscr st
    (write_lines cfg 0 (visible cfg buf) (clear_log_rows cfg (stdscr st))).

Definition load_entire_log (cfg : config) (w : world) (instance : Z)
    (st : viewer) : result viewer :=
  let path := log_path cfg instance in
  if negb (os_path_isfile w path) then Ok st
  else
    try_except
      (do f <- open_seek_read w path 0 ;;
       let content := fst f in
       let st := set_positions st (<[instance := len content]> (file_positions st)) in
       Ok (set_buffers st (<[instance := splitlines content]> (instance_buffers st))))
      [OSError]
      (Ok st).

(** What [stdscr.getch()] does in one iteration: it returns a key code
    (-1 when no key arrived within the timeout) or raises curses.error. *)
Inductive getch_result : Type :=
| Key (ch : Z)
| GetchError.

(** One turn of the main loop: what the viewer observes of the system while
    it runs, and what [getch] answers. *)
Record event : Type := {
  ev_world : world;
  ev_getch : getch_result
}.

(** How one iteration of [while True] ends. *)
Inductive control (S : Type) : Type :=
| Continue (st : S)
| Return (code : Z).
Arguments Continue {S} st.
Arguments Return {S} code.

Definition ord_q : Z := 113.
Definition ord_Q : Z := 81.
Definition ord_0 : Z := 48.
Definition ord_1 : Z := 49.
Definition ord_9 : Z := 57.

(** [for line in new_text.splitlines(keepends=True):
       instance_buffers[current].append(line)] *)
Fixpoint append_lines (cur : Z) (lines : list string)
    (bufs : gmap Z (list string)) : result (gmap Z (list string)) :=
  match lines with
  | [] => Ok bufs
  | line :: rest =>
      do buf <- getitem bufs cur ;;
      append_lines cur rest (<[cur := (buf ++ [line])%list]> bufs)
  end.

(** The part of the loop body below the key handling: append the new
    content of the current log, then count towards the next redraw of the
    status bar. *)
Definition refresh_content (cfg : config) (w : world) (st : viewer)
    : result (control viewer) :=
  let path := log_path cfg (current st) in
  let pos := default 0 (file_positions st !! current st) in
  do r <- read_new_lines w path pos ;;
  let '(new_text, new_pos) := r in
  let st := set_positions st (<[current st := new_pos]> (file_positions st)) in
  do st <-
    (if negb (is_empty new_text) then
       do bufs <- append_lines (current st) (splitlines new_text)
                               (instance_buffers st) ;;
       let st := set_buffers st bufs in
       do buf <- getitem (instance_buffers st) (current st) ;;
       Ok (draw_log cfg buf st)
     else Ok st) ;;
  let st := set_counter st (status_redraw_counter st + 1) in
  if status_redraw_counter st >=? 40 then
    let st := set_counter st 0 in
    do st <- draw_status_bar cfg w st ;;
    Ok (Continue st)
  else Ok (Continue st).

(** The branch taken for a digit that names another instance. *)
Definition switch_instance (cfg : config) (w : world) (idx : Z) (st : viewer)
    : result (control viewer) :=
  let st := set_current st idx in
  do buf <- getitem (instance_buffers st) (current st) ;;
  do st <-
    (match buf with
     | [] => load_entire_log cfg w (current st) st
     | _ :: _ => Ok st
     end) ;;
  do st <- draw_status_bar cfg w st ;;
  do buf <- getitem (instance_buffers st) (current st) ;;
  let st := draw_log cfg buf st in
  let st := set_counter st 0 in
  Ok (Continue st).

(** The body of [while True] in [run_curses]. *)
Definition iteration (cfg : config) (ev : event) (st : viewer)
    : result (control viewer) :=
  let w := ev_world ev in
  let ch := match ev_getch ev with Key c => c | GetchError => -1 end in
  if (ch =? ord_q) || (ch =? ord_Q) || (ch =? 4) then Ok (Return 0)
  else if (ch >=? ord_1) && (ch <=? ord_9) then
    let idx := ch - ord_0 in
    if (1 <=? idx) && (idx <=? count cfg) && negb (idx =? current st)
    then switch_instance cfg w idx st
    else refresh_content cfg w st
  else refresh_content cfg w st.

(** Where a run stands after the events it was given: it has returned an
    exit status, or it is still in its loop. *)
Inductive run (S : Type) : Type :=
| Returned (code : Z)
| Running (st : S).
Arguments Returned {S} code.
Arguments Running {S} st.

Fixpoint main_loop (cfg : config) (events : list event) (st : viewer)
    : result (run viewer) :=
  match events with
  | [] => Ok (Running st)
  | ev :: rest =>
      do c <- iteration cfg ev st ;;
      match c with
      | Return code => Ok (Returned code)
      | Continue st' => main_loop cfg rest st'
      end
  end.

(** [{i: [] for i in range(1, count + 1)}] *)
Definition empty_buffers (n : Z) : gmap Z (list string) :=
  list_to_map (map (fun i => (1 + Z.of_nat i, [])) (seq 0 (Z.to_nat n))).

Definition initial_viewer (cfg : config) : viewer :=
  {| instance_buffers := empty_buffers (count cfg);
     current := 1;
     file_positions := ∅;
     status_redraw_counter := 0;
     stdscr := blank_window |}.

(** The viewer as it enters its loop. *)
Definition start_curses (cfg : config) (w0 : world) : result viewer :=
  let st := initial_viewer cfg in
  do st <- draw_status_bar cfg w0 st ;;
  do st <- load_entire_log cfg w0 1 st ;;
  do buf <- getitem (instance_buffers st) (current st) ;;
  Ok (draw_log cfg buf st).

(** [run_curses], on a terminal whose cursor [curses.curs_set(0)] can
    hide. *)
Definition run_curses (cfg : config) (w0 : world) (events : list event)
    : result (run viewer) :=
  if height cfg <? 3 then Ok (Returned 1)
  else
    do st <- start_curses cfg w0 ;;
    main_loop cfg events st.

(** ** The fallback viewer *)

Record fallback : Type := {
  fb_current : Z;
  fb_positions : gmap Z Z;
  fb_stdout : string
}.

(** [sys.stdout.write(text); sys.stdout.flush()]: BrokenPipeError, an
    OSError, when nobody reads standard output any more. *)
Definition stdout_write (w : world) (out text : string) : result string :=
  if w_stdout_broken w then Raise OSError else Ok (out +:+ text).

(** The body of [while True] in [run_fallback]; [w] is the system as this
    iteration finds it. *)
Definition fallback_iteration (cfg : config) (w : world) (st : fallback)
    : result (control fallback) :=
  let path := log_path cfg (fb_current st) in
  let pos := default 0 (fb_positions st !! fb_current st) in
  do r <- read_new_lines w path pos ;;
  let '(new_text, new_pos) := r in
  let positions := <[fb_current st := new_pos]> (fb_positions st) in
  do out <-
    (if negb (is_empty new_text) then stdout_write w (fb_stdout st) new_text
     else Ok (fb_stdout st)) ;;
  Ok (Continue {| fb_current := fb_current st; fb_positions := positions;
                  fb_stdout := out |}).

Fixpoint fallback_loop (cfg : config) (worlds : list world) (st : fallback)
    : result (run fallback) :=
  match worlds with
  | [] => Ok (Running st)
  | w :: rest =>
      do c <- fallback_iteration cfg w st ;;
      match c with
      | Return code => Ok (Returned code)
      | Continue st' => fallback_loop cfg rest st'
      end
  end.

(** The fallback viewer as it enters its loop: the status line is printed. *)
Definition start_fallback (cfg : config) (w0 : world) : result fallback :=
  let current := 1 in
  do running <- count_running w0 (pids_file cfg) ;;
  let stopped := count cfg - running in
  let line :=
    STATUS_BAR_FORMAT running (count cfg) stopped current (count cfg) in
  do out <- stdout_write w0 "" (line +:+ chr LF) ;;
  Ok {| fb_current := current; fb_positions := ∅; fb_stdout := out |}.

Definition run_fallback (cfg : config) (w0 : world) (worlds : list world)
    : result (run fallback) :=
  do st <- start_fallback cfg w0 ;;
  fallback_loop cfg worlds st.

(** ** Entry point *)

(** The parsed command line and what the process finds when it starts. *)
Record invocation : Type := {
  args : config;               (* --log-dir, --count, --pids-file; terminal size *)
  curses_present : bool;       (* [curses is not None] *)
  stdout_isatty : bool;
  boot : world                 (* the system when [main] starts *)
}.

(** What a run of [main] amounts to: the exit status it returned if it did,
    and otherwise the viewer it is still running. *)
Inductive outcome : Type :=
| Exit (code : Z)
| Interactive (st : viewer)
| Fallback (st : fallback).

Definition main (inv : invocation) (events : list event) : result outcome :=
  let cfg := args inv in
  if (count cfg <? 1) || (count cfg >? 9) then Ok (Exit 1)
  else if negb (os_path_isdir (boot inv) (log_dir cfg)) then Ok (Exit 1)
  else if curses_present inv && stdout_isatty inv then
    do r <- run_curses cfg (boot inv) events ;;
    match r with
    | Returned code => Ok (Exit code)
    | Running st => Ok (Interactive st)
    end
  else
    do r <- run_fallback cfg (boot inv) (map ev_world events) ;;
    match r with
    | Returned code => Ok (Exit code)
    | Running st => Ok (Fallback st)
    end.

(** ** Statement vocabulary and sample inputs *)

(** The keys that ask the viewer to quit. *)
Definition is_quit (g : getch_result) : bool :=
  match g with
  | Key ch => (ch =? ord_q) || (ch =? ord_Q) || (ch =? 4)
  | GetchError => false
  end.

(** The keys that make the viewer watch another instance: a digit from
    1 to [count] other than the one watched. *)
Definition is_switch (cfg : config) (st : viewer) (g : getch_result) : bool :=
  match g with
  | Key ch =>
      (ch >=? ord_1) && (ch <=? ord_9)
      && ((1 <=? ch - ord_0) && (ch - ord_0 <=? count cfg)
          && negb (ch - ord_0 =? current st))
  | GetchError => false
  end.

(** The fallback viewer only stores positions it read from the reader. *)
Definition fb_positions_ok (st : fallback) : Prop :=
  forall k v, fb_positions st !! k = Some v -> 0 <= v.

(** Whether the process table has a process that signal 0 reaches. *)
Definition is_alive (w : world) (pid : Z) : bool :=
  match w_procs w pid with Alive => true | _ => false end.

(** The process ids a PID file yields: the stripped lines made of digits. *)
Definition pid_tokens (text : string) : list string :=
  List.filter isdigit (map strip (file_lines text)).

Definition demo_log : string := "x" +:+ chr LF +:+ "y" +:+ chr LF.

Definition demo_world : world :=
  {| w_fs := <["/logs" := Directory]>
               (<["/logs/instance_1.log" := Regular demo_log Readable]> ∅);
     w_procs := fun _ => NoSuchProcess;
     w_stdout_broken := false |}.

Definition demo_config : config :=
  {| log_dir := "/logs"; count := 3; pids_file := ""; height := 3; width := 80 |}.

Definition demo_viewer : viewer :=
  {| instance_buffers := empty_buffers 3; current := 1; file_positions := ∅;
     status_redraw_counter := 0; stdscr := blank_window |}.

Definition key_event (w : world) (ch : Z) : event :=
  {| ev_world := w; ev_getch := Key ch |}.

(** A PID file whose second line is a number no process id can have. *)
Definition overflow_world : world :=
  {| w_fs := <["/run/pids" :=
                 Regular ("101" +:+ chr LF +:+ "2147483648" +:+ chr LF) Readable]> ∅;
     w_procs := fun _ => NoSuchProcess;
     w_stdout_broken := false |}.

(** Three processes are listed, 101 and 102 run, 103 does not exist. *)
Definition pids_world : world :=
  {| w_fs := <["/logs" := Directory]>
               (<["/run/pids" :=
                    Regular ("101" +:+ chr LF +:+ "102" +:+ chr LF
                             +:+ "103" +:+ chr LF) Readable]> ∅);
     w_procs := fun pid =>
       if (pid =? 101) || (pid =? 102) then Alive else NoSuchProcess;
     w_stdout_broken := false |}.

Definition pids_config (columns : Z) : config :=
  {| log_dir := "/logs"; count := 3; pids_file := "/run/pids";
     height := 24; width := columns |}.

Definition status_2_of_3 : string :=
  " [ Instances: 2/3 running, 1 stopped | Watching: Instance 1 | Keys: 1-3 switch, q quit ] ".

Definition hello_line : string := "hello" +:+ chr LF.

(** The first log once "hello" was appended to it, and a viewer that had
    read the log up to there. *)
Definition hello_world : world :=
  {| w_fs := <["/logs" := Directory]>
               (<["/logs/instance_1.log" :=
                    Regular (demo_log +:+ hello_line) Readable]> ∅);
     w_procs := fun _ => NoSuchProcess;
     w_stdout_broken := false |}.

Definition caught_up_viewer : viewer :=
  {| instance_buffers := <[1 := splitlines demo_log]> (empty_buffers 3);
     current := 1;
     file_positions := <[1 := len demo_log]> ∅;
     status_redraw_counter := 0;
     stdscr := blank_window |}.

Definition a_line : string := "a" +:+ chr LF.

(** The offsets a viewer stores are positions in files. *)
Definition positions_ok (st : viewer) : Prop :=
  forall k v, file_positions st !! k = Some v -> 0 <= v.


(** An interactive terminal of two rows. *)
Definition small_screen_invocation : invocation :=
  {| args := {| log_dir := "/logs"; count := 3; pids_file := "";
                height := 2; width := 80 |};
     curses_present := true;
     stdout_isatty := true;
     boot := demo_world |}.

Definition demo_invocation : invocation :=
  {| args := demo_config; curses_present := true; stdout_isatty := true;
     boot := demo_world |}.

(** What holds of the viewer whenever it is in its loop: it watches one of
    the [count] instances, every instance has a buffer, and the offsets are
    positions. *)
Definition well_formed (cfg : config) (st : viewer) : Prop :=
  1 <= current st <= count cfg
  /\ (forall i, 1 <= i <= count cfg -> is_Some (instance_buffers st !! i))
  /\ positions_ok st.

(** The texts the model reads as the viewer does, byte for byte.  [is_ascii]:
    every byte is an ASCII character, so that decoding gives one character
    for each byte.  [plain_text]: moreover no byte is a CR, which text mode
    would translate, or a NUL, which curses refuses. *)
Definition NUL : ascii := ascii_of_nat 0.

Definition is_ascii_char (c : ascii) : bool := (nat_of_ascii c <? 128)%nat.

Definition is_plain_char (c : ascii) : bool :=
  is_ascii_char c && negb (Ascii.eqb c CR) && negb (Ascii.eqb c NUL).

Fixpoint str_forall (p : ascii -> bool) (s : string) : bool :=
  match s with
  | EmptyString => true
  | String c s' => p c && str_forall p s'
  end.

Definition is_ascii (s : string) : bool := str_forall is_ascii_char s.
Definition plain_text (s : string) : bool := str_forall is_plain_char s.
Definition no_CR (s : string) : bool :=
  str_forall (fun c => negb (Ascii.eqb c CR)) s.

(** A history of a log that is only appended to: in each successive world
    the file at [path] either cannot be read as a regular file (it is not
    there yet, say) or holds plain text: the text seen before followed by
    more text. *)
Fixpoint log_grows (path : string) (prev : string) (worlds : list world)
    : Prop :=
  match worlds with
  | [] => True
  | w :: rest =>
      match w_fs w !! path with
      | Some (Regular c Readable) =>
          (exists more, c = prev +:+ more) /\ plain_text c = true
          /\ log_grows path c rest
      | _ => log_grows path prev rest
      end
  end.

(** The text of the log at the end of such a history. *)
Fixpoint log_text (path : string) (prev : string) (worlds : list world)
    : string :=
  match worlds with
  | [] => prev
  | w :: rest =>
      match w_fs w !! path with
      | Some (Regular c Readable) => log_text path c rest
      | _ => log_text path prev rest
      end
  end.

(** The text [draw_log] hands to curses for one line of the buffer. *)
Definition shown_text (cfg : config) (line : string) : string :=
  slice_to (rstrip_newlines line +:+ chr LF) (width cfg - 1).

(** The text [draw_status_bar] hands to curses. *)
Definition status_text (cfg : config) (running watching : Z) : string :=
  slice_to
    (STATUS_BAR_FORMAT running (count cfg) (count cfg - running) watching
       (count cfg))
    (width cfg - 1).

(** A file system whose only file is the log of instance 1. *)
Definition log_world (content : string) : world :=
  {| w_fs := <["/logs" := Directory]>
               (<["/logs/instance_1.log" := Regular content Readable]> ∅);
     w_procs := fun _ => NoSuchProcess;
     w_stdout_broken := false |}.

(** A viewer that has read the ten characters of a log that read
    "x", "y", "hello". *)
Definition read_hello_viewer : viewer :=
  {| instance_buffers :=
       <[1 := splitlines (demo_log +:+ hello_line)]> (empty_buffers 3);
     current := 1;
     file_positions := <[1 := 10]> ∅;
     status_redraw_counter := 0;
     stdscr := blank_window |}.

(** A file system with the logs of the instances 1 and 2. *)
Definition two_logs_world : world :=
  {| w_fs := <["/logs" := Directory]>
               (<["/logs/instance_1.log" := Regular demo_log Readable]>
                  (<["/logs/instance_2.log" := Regular a_line Readable]> ∅));
     w_procs := fun _ => NoSuchProcess;
     w_stdout_broken := false |}.

(** The first log with "hello" appended, seen when nobody reads standard
    output any more. *)
Definition broken_pipe_world : world :=
  {| w_fs := w_fs hello_world; w_procs := w_procs hello_world;
     w_stdout_broken := true |}.

(** A log written with the line ends CR LF. *)
Definition crlf_log : string := "a" +:+ chr CR +:+ chr LF.

Definition crlf_world : world := log_world crlf_log.

(** [is_prefix a b]: the text [b] starts with the text [a]. *)
Definition is_prefix (a b : string) : Prop := exists rest, b = a +:+ rest.

(** Every buffer mirrors its log: the buffer of each instance, joined, is
    the first part of the text [log i] of its log, and the offset of the
    instance is the length of that part. *)
Definition mirrors (cfg : config) (st : viewer) (log : Z -> string) : Prop :=
  forall i buf,
    1 <= i <= count cfg ->
    instance_buffers st !! i = Some buf ->
    default 0 (file_positions st !! i) = len (String.concat "" buf)
    /\ is_prefix (String.concat "" buf) (log i).

(** A viewer of one instance that has read nothing yet. *)
Definition single_config : config :=
  {| log_dir := "/logs"; count := 1; pids_file := ""; height := 5; width := 80 |}.

Definition single_viewer : viewer :=
  {| instance_buffers := {[ 1 := [] ]}; current := 1; file_positions := ∅;
     status_redraw_counter := 0; stdscr := blank_window |}.

(** An instance from which nothing was read yet has its offset at 0. *)
Definition unread_at_zero (st : viewer) : Prop :=
  forall i, instance_buffers st !! i = Some [] ->
            default 0 (file_positions st !! i) = 0.

(** ** Contact names (scripts/extract_username.py)

    A Python [str] is here a list of Unicode code points, since contact
    names mix Arabic and English; [None] is [None]. *)

Definition ustr : Type := list N.

(** One character matched by the class [[a-zA-Z0-9]]. *)
Definition is_alnum (c : N) : bool :=
  ((48 <=? c) && (c <=? 57) || (65 <=? c) && (c <=? 90)
   || (97 <=? c) && (c <=? 122))%N.

(** One character matched by [\s], which is also what [str.strip] removes:
    the Unicode white space. *)
Definition is_uspace (c : N) : bool :=
  ((9 <=? c) && (c <=? 13) || (28 <=? c) && (c <=? 32)
   || (c =? 133) || (c =? 160) || (c =? 5760)
   || (8192 <=? c) && (c <=? 8202)
   || (c =? 8232) || (c =? 8233) || (c =? 8239) || (c =? 8287)
   || (c =? 12288))%N.

(** [re.findall(r'[class]+', s)]: the maximal runs of characters of the
    class, from left to right. *)
Fixpoint findall_runs (p : N -> bool) (s : ustr) : list ustr :=
  match s with
  | [] => []
  | c :: s' =>
      if p c then
        match s' with
        | c' :: _ =>
            if p c' then
              match findall_runs p s' with
              | r :: rs => (c :: r) :: rs
              | [] => [[c]]
              end
            else [c] :: findall_runs p s'
        | [] => [[c]]
        end
      else findall_runs p s'
  end.

(** [re.sub(r'[class]+', repl, s)]: every maximal run of characters of the
    class is replaced by [repl]. *)
Fixpoint sub_runs (p : N -> bool) (repl : ustr) (s : ustr) : ustr :=
  match s with
  | [] => []
  | c :: s' =>
      if p c then
        match s' with
        | c' :: _ =>
            if p c' then sub_runs p repl s'
            else (repl ++ sub_runs p repl s')%list
        | [] => repl
        end
      else c :: sub_runs p repl s'
  end.

Fixpoint ulstrip (s : ustr) : ustr :=
  match s with
  | c :: s' => if is_uspace c then ulstrip s' else s
  | [] => []
  end.

Fixpoint urstrip (s : ustr) : ustr :=
  match s with
  | [] => []
  | c :: s' =>
      match urstrip s' with
      | [] => if is_uspace c then [] else [c]
      | r => c :: r
      end
  end.

(** [s.strip()] *)
Definition ustrip (s : ustr) : ustr := urstrip (ulstrip s).

Definition extract_username (name : option ustr) : option ustr :=
  match name with
  | None | Some [] => None                       (* if not name *)
  | Some s =>
      let matches := findall_runs is_alnum s in
      match matches with
      | [] => None                               (* if not matches *)
      | _ :: _ =>
          let username := List.concat matches in
          match username with
          | [] => None
          | _ :: _ => Some username
          end
      end
  end.

Definition split_name_and_username (full_name : option ustr)
    : option ustr * option ustr :=
  match full_name with
  | None | Some [] => (None, None)               (* if not full_name *)
  | Some s =>
      match extract_username (Some s) with
      | None | Some [] => (Some s, None)         (* if not username *)
      | Some username =>
          let name_without_username := sub_runs is_alnum [] s in
          let name_without_username :=
            ustrip (sub_runs is_uspace [32%N] name_without_username) in
          let name_without_username :=
            match name_without_username with
            | [] => s
            | _ :: _ => name_without_username
            end in
          (Some name_without_username, Some username)
      end
  end.

(** Code points of an ASCII [string], for writing names. *)
Fixpoint ustr_of (s : string) : ustr :=
  match s with
  | EmptyString => []
  | String c s' => N_of_ascii c :: ustr_of s'
  end.

(** The name "محمد". *)
Definition arabic_name : ustr := [1605; 1581; 1605; 1583]%N.

(** The characters a contact name keeps once its username and its white
    space are taken out. *)
Definition is_kept (c : N) : bool := negb (is_alnum c) && negb (is_uspace c).

Definition not_uspace (c : N) : bool := negb (is_uspace c).

(** * Properties *)

(** ** Strings and results *)

Lemma len_nonneg (s : string) : 0 <= len s.
Proof. unfold len. lia. Qed.

Lemma append_cons (c : ascii) (s t : string) :
  String c s +:+ t = String c (s +:+ t).
Proof. reflexivity. Qed.

Lemma append_nil (t : string) : "" +:+ t = t.
Proof. reflexivity. Qed.

Lemma length_append (s t : string) :
  String.length (s +:+ t) = (String.length s + String.length t)%nat.
Proof.
  induction s as [|c s IH].
  - reflexivity.
  - rewrite append_cons. simpl. now rewrite IH.
Qed.

Lemma len_append (s t : string) : len (s +:+ t) = len s + len t.
Proof. unfold len. rewrite length_append. lia. Qed.

Lemma str_drop_append (s t : string) : str_drop (String.length s) (s +:+ t) = t.
Proof.
  induction s as [|c s IH]; [reflexivity|].
  rewrite append_cons. simpl. exact IH.
Qed.

Lemma str_drop_all (s : string) (n : nat) :
  (String.length s <= n)%nat -> str_drop n s = "".
Proof.
  revert n. induction s as [|c s IH]; intros [|n] Hn; simpl in *;
    try reflexivity; try lia.
  apply IH. lia.
Qed.

Lemma str_take_drop (n : nat) (s : string) : str_take n s +:+ str_drop n s = s.
Proof.
  revert s. induction n as [|n IH]; intros [|c s]; simpl; try reflexivity.
  rewrite append_cons. f_equal. apply IH.
Qed.


Lemma str_take_all (n : nat) (s : string) :
  (String.length s <= n)%nat -> str_take n s = s.
Proof.
  revert s. induction n as [|n IH]; intros [|c s] Hn; simpl in *;
    try reflexivity; try lia.
  f_equal. apply IH. lia.
Qed.

Lemma append_empty_r (s : string) : s +:+ "" = s.
Proof.
  induction s as [|c s IH]; [reflexivity|].
  rewrite append_cons. now f_equal.
Qed.

Lemma is_empty_true (s : string) : is_empty s = true <-> s = "".
Proof. destruct s; simpl; split; congruence. Qed.

(** Joining the pieces of [splitlines] gives the text back: no character is
    lost or repeated by the split. *)
Lemma concat_splitlines (s : string) : String.concat "" (splitlines s) = s.
Proof.
  assert (Hcons : forall c l ls,
             String.concat "" (String c l :: ls)
             = String c (String.concat "" (l :: ls))).
  { intros c l [|l' ls]; reflexivity. }
  assert (Hone : forall c ls,
             String.concat "" (chr c :: ls) = String c (String.concat "" ls)).
  { intros c [|l' ls]; reflexivity. }
  assert (Hstep : forall n (t : string), (String.length t <= n)%nat ->
             String.concat "" (splitlines t) = t).
  { induction n as [|n IH]; intros [|c t] Hn; simpl in Hn; try reflexivity;
      try lia.
    simpl. destruct (Ascii.eqb c CR).
    - destruct t as [|c' t'].
      + reflexivity.
      + destruct (Ascii.eqb_spec c' LF) as [-> | Hne].
        * rewrite Hcons, Hone. rewrite (IH t'); [reflexivity | simpl in Hn; lia].
        * rewrite Hone. rewrite (IH (String c' t')); [reflexivity | lia].
    - destruct (is_linebreak c).
      + rewrite Hone, (IH t); [reflexivity | lia].
      + pose proof (IH t ltac:(lia)) as Ht.
        destruct (splitlines t) as [|l ls].
        * simpl in Ht. subst t. reflexivity.
        * rewrite Hcons, Ht. reflexivity. }
  apply (Hstep (String.length s)). lia.
Qed.

Lemma append_assoc (s t u : string) : (s +:+ t) +:+ u = s +:+ (t +:+ u).
Proof.
  induction s as [|c s IH]; [reflexivity|].
  rewrite !append_cons. now f_equal.
Qed.

Lemma concat_cons (x : string) (xs : list string) :
  String.concat "" (x :: xs) = x +:+ String.concat "" xs.
Proof.
  destruct xs as [|y ys]; simpl.
  - now rewrite append_empty_r.
  - reflexivity.
Qed.

Lemma concat_app (l1 l2 : list string) :
  String.concat "" (l1 ++ l2) = String.concat "" l1 +:+ String.concat "" l2.
Proof.
  induction l1 as [|a l1 IH].
  - reflexivity.
  - change ((a :: l1) ++ l2)%list with (a :: (l1 ++ l2))%list.
    rewrite !concat_cons, IH, append_assoc. reflexivity.
Qed.

Lemma str_forall_append (p : ascii -> bool) (s t : string) :
  str_forall p (s +:+ t) = str_forall p s && str_forall p t.
Proof.
  induction s as [|c s IH]; [reflexivity|].
  rewrite append_cons. simpl. rewrite IH. apply andb_assoc.
Qed.

Lemma str_forall_drop (p : ascii -> bool) (n : nat) (s : string) :
  str_forall p s = true -> str_forall p (str_drop n s) = true.
Proof.
  revert s. induction n as [|n IH]; intros [|c s] H; simpl in *; try assumption.
  apply andb_prop in H as [_ H]. now apply IH.
Qed.

Lemma str_forall_impl (p q : ascii -> bool) (s : string) :
  (forall c, p c = true -> q c = true) ->
  str_forall p s = true -> str_forall q s = true.
Proof.
  intros Hpq. induction s as [|c s IH]; simpl; [reflexivity|].
  intros H. apply andb_prop in H as [Hc Hs]. now rewrite (Hpq c Hc), IH.
Qed.

Lemma plain_text_append (s t : string) :
  plain_text (s +:+ t) = plain_text s && plain_text t.
Proof. apply str_forall_append. Qed.

Lemma plain_text_no_CR (s : string) : plain_text s = true -> no_CR s = true.
Proof.
  apply str_forall_impl. intros c H. unfold is_plain_char in H.
  apply andb_prop in H as [H _]. now apply andb_prop in H as [_ H].
Qed.

(** Text without a CR is read as it is. *)
Lemma universal_newlines_no_CR (s : string) :
  no_CR s = true -> universal_newlines s = s.
Proof.
  induction s as [|c s IH]; simpl; [reflexivity|].
  intros H. apply andb_prop in H as [Hc Hs].
  apply negb_true_iff in Hc. rewrite Hc. now rewrite IH.
Qed.

Lemma universal_newlines_plain (s : string) :
  plain_text s = true -> universal_newlines s = s.
Proof. intros H. apply universal_newlines_no_CR, plain_text_no_CR, H. Qed.

(** The translation of line ends makes no text empty and no text longer. *)
Lemma universal_newlines_empty (s : string) :
  universal_newlines s = "" -> s = "".
Proof.
  destruct s as [|c s]; [reflexivity|]. simpl.
  destruct (Ascii.eqb c CR); [|discriminate].
  destruct s as [|c' s']; [discriminate|].
  destruct (Ascii.eqb c' LF); discriminate.
Qed.

Lemma universal_newlines_length (s : string) :
  (String.length (universal_newlines s) <= String.length s)%nat.
Proof.
  assert (H : forall n t, (String.length t <= n)%nat ->
              (String.length (universal_newlines t) <= String.length t)%nat).
  { induction n as [|n IH]; intros [|c t] Hn; simpl in *; try lia.
    destruct (Ascii.eqb c CR).
    - destruct t as [|c' t']; [simpl; lia|].
      destruct (Ascii.eqb c' LF); simpl.
      + specialize (IH t'). simpl in Hn. lia.
      + specialize (IH (String c' t')). simpl in *. lia.
    - simpl. specialize (IH t). lia. }
  apply (H (String.length s)). lia.
Qed.

(** ** Incremental reader *)

Lemma open_seek_read_readable (w : world) (path content : string) (position : Z) :
  w_fs w !! path = Some (Regular content Readable) -> 0 <= position ->
  open_seek_read w path position
  = Ok (universal_newlines (str_drop (Z.to_nat position) content),
        Z.max position (len content)).
Proof.
  intros Hf Hpos. unfold open_seek_read. rewrite Hf.
  destruct (position <? 0) eqn:E; [lia | reflexivity].
Qed.

Lemma read_new_lines_readable (w : world) (path content : string) (position : Z) :
  w_fs w !! path = Some (Regular content Readable) -> 0 <= position ->
  read_new_lines w path position
  = Ok (universal_newlines (str_drop (Z.to_nat position) content),
        Z.max position (len content)).
Proof.
  intros Hf Hpos. unfold read_new_lines, os_path_isfile. rewrite Hf. simpl.
  rewrite (open_seek_read_readable _ _ _ _ Hf Hpos). reflexivity.
Qed.

Lemma read_new_lines_no_data (w : world) (path : string) (position : Z) :
  (forall content, w_fs w !! path <> Some (Regular content Readable)) ->
  read_new_lines w path position = Ok ("", position).
Proof.
  intros Hf. unfold read_new_lines, os_path_isfile, open_seek_read.
  destruct (w_fs w !! path) as [[content [| |]|]|] eqn:E; simpl;
    try reflexivity.
  exfalso. exact (Hf content eq_refl).
Qed.

(** In the model the reader answers whenever the stored offset is not
    negative, and it never moves the offset backwards. *)
Lemma read_new_lines_total (w : world) (path : string) (position : Z) :
  0 <= position ->
  exists data new_pos,
    read_new_lines w path position = Ok (data, new_pos) /\ position <= new_pos.
Proof.
  intros Hpos.
  destruct (w_fs w !! path) as [[content [| |]|]|] eqn:E.
  1: { eexists _, _. split; [apply (read_new_lines_readable _ _ _ _ E Hpos) | lia]. }
  all: exists "", position; split; [|lia];
    apply read_new_lines_no_data; intros c; rewrite E; congruence.
Qed.

Lemma str_drop_length (n : nat) (s : string) :
  String.length (str_drop n s) = (String.length s - n)%nat.
Proof.
  revert s. induction n as [|n IH]; intros [|c s]; simpl; try lia. apply IH.
Qed.

(** C6 (amended).  For a stored offset (an offset is not negative):
    when the path is not a regular file, and when the file cannot be opened
    or read (an OSError), [read_new_lines] returns the empty text and the
    unchanged offset.  Otherwise, when the bytes of the file from the offset
    on are ASCII, it returns their text with every CR LF and every other CR
    translated to LF, together with the byte position the read ended at:
    the end of the file, or the offset itself when it lies beyond the end
    (nothing is read then).  Only when those bytes hold no CR is the text
    returned the bytes themselves and the new position the offset plus the
    number of characters returned. *)
Theorem read_new_lines_contract (w : world) (path : string) (position : Z) :
  0 <= position ->
  (os_path_isfile w path = false ->
   read_new_lines w path position = Ok ("", position))
  /\ (forall content access,
        w_fs w !! path = Some (Regular content access) -> access <> Readable ->
        read_new_lines w path position = Ok ("", position))
  /\ (forall content,
        w_fs w !! path = Some (Regular content Readable) ->
        is_ascii (str_drop (Z.to_nat position) content) = true ->
        exists data new_pos,
          read_new_lines w path position = Ok (data, new_pos)
          /\ data = universal_newlines (str_drop (Z.to_nat position) content)
          /\ new_pos = Z.max position (len content)
          /\ (position <= len content -> new_pos = len content)
          /\ (len content <= position -> data = "" /\ new_pos = position)
          /\ len data <= new_pos - position
          /\ (no_CR (str_drop (Z.to_nat position) content) = true ->
              data = str_drop (Z.to_nat position) content
              /\ new_pos = position + len data
              /\ (position <= len content ->
                  str_take (Z.to_nat position) content +:+ data = content))).
Proof.
  intros Hpos. split; [|split].
  - intros Hnf. unfold read_new_lines. rewrite Hnf. reflexivity.
  - intros content access Hf Hacc. apply read_new_lines_no_data.
    intros c. rewrite Hf. intros Heq. apply Hacc. congruence.
  - intros content Hf _.
    exists (universal_newlines (str_drop (Z.to_nat position) content)),
           (Z.max position (len content)).
    split; [apply (read_new_lines_readable _ _ _ _ Hf Hpos)|].
    split; [reflexivity|]. split; [reflexivity|].
    pose proof (universal_newlines_length (str_drop (Z.to_nat position) content))
      as Hle.
    pose proof (str_drop_length (Z.to_nat position) content) as Hlen.
    split; [lia|]. split; [|split].
    + intros Hend. split; [|lia].
      rewrite str_drop_all by (unfold len in Hend; lia). reflexivity.
    + unfold len in *. lia.
    + intros Hcr. rewrite (universal_newlines_no_CR _ Hcr).
      split; [reflexivity|]. split.
      * unfold len in *. lia.
      * intros _. apply str_take_drop.
Qed.

Lemma read_new_lines_contract_witness :
  read_new_lines demo_world "/logs/instance_1.log" 2
  = Ok ("y" +:+ chr LF, 4).
Proof.
  destruct (read_new_lines_contract demo_world "/logs/instance_1.log" 2)
    as (_ & _ & H); [lia|].
  destruct (H demo_log) as (data & new_pos & Hr & -> & -> & _);
    [reflexivity | reflexivity | exact Hr].
Defined.

(** C6, as stated, fails on a log whose lines end in CR LF: of the three
    bytes "a", CR, LF read from offset 0 the reader returns the two
    characters "a", LF, which are not the bytes of the file, and the new
    position 3 is not the offset plus the length of what it returned. *)
Lemma read_new_lines_crlf_counterexample :
  w_fs crlf_world !! "/logs/instance_1.log" = Some (Regular crlf_log Readable)
  /\ is_ascii crlf_log = true
  /\ read_new_lines crlf_world "/logs/instance_1.log" 0
     = Ok ("a" +:+ chr LF, 3)
  /\ "a" +:+ chr LF <> str_drop 0 crlf_log
  /\ 3 <> 0 + len ("a" +:+ chr LF).
Proof.
  split; [reflexivity|]. split; [reflexivity|]. split; [reflexivity|].
  split; [discriminate | vm_compute; discriminate].
Qed.

(** ** Viewport *)

Lemma draw_log_buffers (cfg : config) (buf : list string) (st : viewer) :
  instance_buffers (draw_log cfg buf st) = instance_buffers st
  /\ file_positions (draw_log cfg buf st) = file_positions st
  /\ current (draw_log cfg buf st) = current st
  /\ status_redraw_counter (draw_log cfg buf st) = status_redraw_counter st.
Proof. repeat split. Qed.

(** C9.  With a viewport of [h > 0] rows ([run_curses] requires a screen of
    at least 3 rows, so its viewport has at least 2), the lines [draw_log]
    selects from a buffer longer than [h] are exactly its last [h] lines, in
    their order; a buffer of at most [h] lines is selected whole; and
    drawing leaves the buffers of the viewer as they were. *)
Theorem visible_last_lines (cfg : config) (buf : list string) (st : viewer) :
  0 < log_height cfg ->
  (Z.of_nat (length buf) > log_height cfg ->
     visible cfg buf = drop (length buf - Z.to_nat (log_height cfg)) buf
     /\ Z.of_nat (length (visible cfg buf)) = log_height cfg
     /\ (take (length buf - Z.to_nat (log_height cfg)) buf
         ++ visible cfg buf)%list = buf)
  /\ (Z.of_nat (length buf) <= log_height cfg -> visible cfg buf = buf)
  /\ instance_buffers (draw_log cfg buf st) = instance_buffers st.
Proof.
  intros Hh. split; [|split].
  - intros Hlong.
    assert (Hv : visible cfg buf
                 = drop (length buf - Z.to_nat (log_height cfg)) buf).
    { unfold visible, slice_from.
      destruct (Z.of_nat (length buf) >? log_height cfg) eqn:E; [|lia].
      destruct (- log_height cfg <? 0) eqn:E'; [|lia].
      f_equal. lia. }
    rewrite Hv. split; [reflexivity|]. split.
    + rewrite length_drop. lia.
    + apply take_drop.
  - intros Hshort. unfold visible.
    destruct (Z.of_nat (length buf) >? log_height cfg) eqn:E; [lia | reflexivity].
  - reflexivity.
Qed.


Lemma visible_last_lines_witness :
  visible demo_config ["a"; "b"; "c"] = ["b"; "c"].
Proof.
  assert (H : 0 < log_height demo_config) by (vm_compute; reflexivity).
  destruct (visible_last_lines demo_config ["a"; "b"; "c"] demo_viewer H)
    as [Hlong _].
  destruct Hlong as [Hv _]; [vm_compute; reflexivity | exact Hv].
Defined.

(** ** Quit keys *)


Lemma iteration_quit (cfg : config) (ev : event) (st : viewer) :
  is_quit (ev_getch ev) = true -> iteration cfg ev st = Ok (Return 0).
Proof.
  unfold is_quit, iteration. destruct (ev_getch ev) as [ch|]; [|discriminate].
  intros ->. reflexivity.
Qed.

Lemma main_loop_app (cfg : config) (pre rest : list event) (st0 st : viewer) :
  main_loop cfg pre st0 = Ok (Running st) ->
  main_loop cfg (pre ++ rest) st0 = main_loop cfg rest st.
Proof.
  revert st0. induction pre as [|ev pre IH]; intros st0 H; simpl in *.
  - now inversion H.
  - destruct (iteration cfg ev st0) as [[st'|code]|e]; simpl in *;
      try discriminate.
    now apply IH.
Qed.

(** C4 (amended).  In whatever state the main loop is after the events [pre]
    (whichever instance is watched), reading 'q', 'Q' or the control
    character of code 4 (end of transmission, Ctrl-D) makes that very
    iteration return 0, and so the loop, and with it [run_curses], returns
    0, whatever events would have followed. *)
Theorem quit_key_returns_0 (cfg : config) (pre rest : list event)
    (ev : event) (st0 st : viewer) (ch : Z) :
  main_loop cfg pre st0 = Ok (Running st) ->
  ev_getch ev = Key ch ->
  ch = ord_q \/ ch = ord_Q \/ ch = 4 ->
  iteration cfg ev st = Ok (Return 0)
  /\ main_loop cfg (pre ++ ev :: rest) st0 = Ok (Returned 0)
  /\ (forall w0, 3 <= height cfg -> start_curses cfg w0 = Ok st0 ->
      run_curses cfg w0 (pre ++ ev :: rest) = Ok (Returned 0)).
Proof.
  intros Hpre Hkey Hch.
  assert (Hq : is_quit (ev_getch ev) = true).
  { rewrite Hkey. simpl. destruct Hch as [-> | [-> | ->]]; reflexivity. }
  assert (Hloop : main_loop cfg (pre ++ ev :: rest) st0 = Ok (Returned 0)).
  { rewrite (main_loop_app _ _ _ _ _ Hpre). simpl.
    now rewrite (iteration_quit _ _ _ Hq). }
  split; [now apply iteration_quit|]. split; [exact Hloop|].
  intros w0 Hh Hstart. unfold run_curses.
  destruct (height cfg <? 3) eqn:E; [lia|]. rewrite Hstart. exact Hloop.
Qed.

Lemma quit_key_returns_0_witness :
  main_loop demo_config
    ([key_event demo_world (-1)] ++ key_event demo_world ord_q :: [])
    demo_viewer = Ok (Returned 0).
Proof.
  refine (proj1 (proj2 (quit_key_returns_0 demo_config
                          [key_event demo_world (-1)] []
                          (key_event demo_world ord_q) demo_viewer _ ord_q
                          _ _ _))).
  - vm_compute. reflexivity.
  - reflexivity.
  - left. reflexivity.
Defined.

(** C4, as stated, fails for the interrupt control character (code 3, end
    of text, what Ctrl-C sends): it is not among the keys the loop takes for
    a request to quit, and the iteration that reads it goes on to refresh
    the content and continues the loop. *)
Lemma interrupt_key_counterexample :
  is_quit (Key 3) = false
  /\ exists st',
       iteration demo_config (key_event demo_world 3) demo_viewer
       = Ok (Continue st')
       /\ main_loop demo_config [key_event demo_world 3] demo_viewer
          = Ok (Running st').
Proof.
  split; [reflexivity|]. eexists. split; vm_compute; reflexivity.
Qed.

(** ** Fallback viewer *)

(** An iteration of the fallback loop has no way to return: when it
    completes, the loop goes on. *)
Lemma fallback_iteration_no_return (cfg : config) (w : world) (st : fallback)
    (c : control fallback) :
  fallback_iteration cfg w st = Ok c -> exists st', c = Continue st'.
Proof.
  unfold fallback_iteration.
  destruct (read_new_lines _ _ _) as [[data new_pos]|e]; simpl; [|discriminate].
  destruct (if negb (is_empty data) then _ else _) as [out|e]; simpl;
    [|discriminate].
  intros [= <-]. eauto.
Qed.

Lemma fallback_loop_not_returned (cfg : config) (worlds : list world)
    (st : fallback) (code : Z) :
  fallback_loop cfg worlds st <> Ok (Returned code).
Proof.
  revert st. induction worlds as [|w worlds IH]; intros st; simpl.
  - discriminate.
  - destruct (fallback_iteration cfg w st) as [c|e] eqn:E; simpl;
      [|discriminate].
    destruct (fallback_iteration_no_return _ _ _ _ E) as (st' & ->). apply IH.
Qed.

(** While standard output is read, an iteration completes in the model. *)
Lemma fallback_iteration_continues (cfg : config) (w : world) (st : fallback) :
  fb_positions_ok st ->
  w_stdout_broken w = false ->
  exists st',
    fallback_iteration cfg w st = Ok (Continue st')
    /\ fb_positions_ok st' /\ fb_current st' = fb_current st.
Proof.
  intros Hok Hout. unfold fallback_iteration, stdout_write. rewrite Hout.
  set (pos := default 0 (fb_positions st !! fb_current st)).
  assert (Hpos : 0 <= pos).
  { subst pos. destruct (fb_positions st !! fb_current st) as [v|] eqn:E;
      simpl; [exact (Hok _ _ E) | lia]. }
  destruct (read_new_lines_total w (log_path cfg (fb_current st)) pos Hpos)
    as (data & new_pos & Hr & Hle).
  rewrite Hr. simpl.
  assert (Hpos' : fb_positions_ok
                    {| fb_current := fb_current st;
                       fb_positions := <[fb_current st := new_pos]> (fb_positions st);
                       fb_stdout := "" |}).
  { intros k v. simpl. rewrite lookup_insert. case_decide.
    - intros [= <-]. lia.
    - apply Hok. }
  destruct (negb (is_empty data)); simpl; eexists;
    (split; [reflexivity|]); (split; [exact Hpos' | reflexivity]).
Qed.

Lemma fallback_loop_running (cfg : config) (worlds : list world) (st : fallback) :
  fb_positions_ok st ->
  Forall (fun w => w_stdout_broken w = false) worlds ->
  exists st', fallback_loop cfg worlds st = Ok (Running st') /\ fb_positions_ok st'.
Proof.
  revert st. induction worlds as [|w worlds IH]; intros st Hok Hall; simpl.
  - eauto.
  - inversion Hall as [|? ? Hw Hrest]; subst.
    destruct (fallback_iteration_continues cfg w st Hok Hw) as (st' & -> & Hok' & _).
    simpl. apply IH; assumption.
Qed.

Lemma start_fallback_ok (cfg : config) (w0 : world) (st0 : fallback) :
  start_fallback cfg w0 = Ok st0 -> fb_positions_ok st0.
Proof.
  unfold start_fallback. destruct (count_running w0 (pids_file cfg)); simpl;
    [|discriminate].
  destruct (stdout_write _ _ _); simpl; [|discriminate].
  intros [= <-] k v. simpl. rewrite lookup_empty. discriminate.
Qed.

(** Whatever the system does, [run_fallback] does not return an exit
    status. *)
Lemma run_fallback_not_returned (cfg : config) (w0 : world)
    (worlds : list world) (code : Z) :
  run_fallback cfg w0 worlds <> Ok (Returned code).
Proof.
  unfold run_fallback. destruct (start_fallback cfg w0) as [st0|e] eqn:E; simpl.
  - apply fallback_loop_not_returned.
  - discriminate.
Qed.

(** C10 (amended).  The loop of the fallback viewer has no way out other
    than an exception: an iteration that completes always continues the
    loop, so [run_fallback] returns no exit status, neither 0 nor any other,
    however long it runs.  And as long as standard output is read and the
    log, when it can be read, holds ASCII text, no iteration raises: after
    any number of iterations the viewer is still in its loop. *)
Theorem fallback_never_returns (cfg : config) (w0 : world)
    (worlds : list world) :
  (forall code, run_fallback cfg w0 worlds <> Ok (Returned code))
  /\ (forall w st c,
        fallback_iteration cfg w st = Ok c -> exists st', c = Continue st')
  /\ (forall st0,
        start_fallback cfg w0 = Ok st0 ->
        Forall (fun w =>
                  w_stdout_broken w = false
                  /\ forall c, w_fs w !! log_path cfg 1 = Some (Regular c Readable) ->
                               is_ascii c = true)
               worlds ->
        exists st, run_fallback cfg w0 worlds = Ok (Running st)).
Proof.
  split; [|split].
  - intros code. apply run_fallback_not_returned.
  - intros w st c. apply fallback_iteration_no_return.
  - intros st0 Hstart Hall.
    destruct (fallback_loop_running cfg worlds st0 (start_fallback_ok _ _ _ Hstart))
      as (st & Hloop & _).
    { eapply Forall_impl; [exact Hall|]. intros w [H _]. exact H. }
    exists st. unfold run_fallback. rewrite Hstart. exact Hloop.
Qed.

Lemma fallback_never_returns_witness :
  exists st,
    run_fallback demo_config demo_world [demo_world; demo_world] = Ok (Running st).
Proof.
  destruct (fallback_never_returns demo_config demo_world [demo_world; demo_world])
    as (_ & _ & H).
  apply (H {| fb_current := 1; fb_positions := ∅;
              fb_stdout := STATUS_BAR_FORMAT 0 3 3 1 3 +:+ chr LF |} eq_refl).
  repeat constructor; intros c Hc; vm_compute in Hc;
    injection Hc as <-; reflexivity.
Defined.

(** C10, as stated, fails once nobody reads standard output any more: the
    fallback viewer has printed its status line and is in its loop, the log
    has new text, and the iteration that writes it raises BrokenPipeError
    instead of going on; [run_fallback] ends with that exception, without
    any signal sent to it. *)
Lemma fallback_broken_pipe_counterexample :
  exists st0,
    start_fallback demo_config demo_world = Ok st0
    /\ fallback_iteration demo_config broken_pipe_world st0 = Raise OSError
    /\ run_fallback demo_config demo_world [broken_pipe_world] = Raise OSError.
Proof.
  eexists. split; [reflexivity|]. split; vm_compute; reflexivity.
Qed.

(** ** Liveness monitor *)

Lemma count_true_nonneg (l : list bool) : 0 <= count_true l.
Proof. unfold count_true. lia. Qed.

Lemma mapM_py_int_tokens (text : string) :
  mapM py_int (pid_tokens text) = Ok (map (digits_value 0) (pid_tokens text)).
Proof.
  unfold pid_tokens.
  induction (map strip (file_lines text)) as [|l ls IH]; simpl.
  - reflexivity.
  - destruct (isdigit l) eqn:E; simpl; [|exact IH].
    unfold py_int at 1. rewrite E. simpl. rewrite IH. reflexivity.
Qed.

(** A probe that fails with an OSError (no such process, no permission)
    counts the process as not running. *)
Lemma _process_exists_in_range (w : world) (pid : Z) :
  - INT_MAX - 1 <= pid <= INT_MAX ->
  _process_exists w pid = Ok (is_alive w pid).
Proof.
  intros Hr. unfold _process_exists, os_kill0.
  destruct ((INT_MAX <? pid) || (pid <? - INT_MAX - 1)) eqn:E; [lia|].
  unfold is_alive. destruct (w_procs w pid); reflexivity.
Qed.

Lemma mapM_process_exists (w : world) (pids : list Z) :
  Forall (fun p => - INT_MAX - 1 <= p <= INT_MAX) pids ->
  mapM (_process_exists w) pids = Ok (map (is_alive w) pids).
Proof.
  induction 1 as [|p ps Hp Hps IH]; simpl.
  - reflexivity.
  - rewrite (_process_exists_in_range _ _ Hp), IH. reflexivity.
Qed.

Lemma _process_exists_overflow (w : world) (pid : Z) :
  INT_MAX < pid -> _process_exists w pid = Raise OverflowError.
Proof.
  intros Hr. unfold _process_exists, os_kill0.
  destruct ((INT_MAX <? pid) || (pid <? - INT_MAX - 1)) eqn:E; [reflexivity | lia].
Qed.

Lemma count_running_no_file (w : world) (pids_file : string) :
  pids_file = "" \/ os_path_isfile w pids_file = false ->
  count_running w pids_file = Ok 0.
Proof.
  intros [-> | H]; unfold count_running; [reflexivity|].
  rewrite H. simpl. now rewrite orb_true_r.
Qed.

Lemma count_running_unreadable (w : world) (pids_file content : string)
    (access : file_access) :
  w_fs w !! pids_file = Some (Regular content access) -> access <> Readable ->
  count_running w pids_file = Ok 0.
Proof.
  intros Hf Hacc. unfold count_running, os_path_isfile, open_seek_read.
  rewrite Hf. destruct (is_empty pids_file); [reflexivity|]. simpl.
  destruct access; [congruence | reflexivity | reflexivity].
Qed.

(** When every number in the PID file fits a process id, the count is
    returned, and it lies between 0 and the number of such lines. *)
Lemma count_running_in_range (w : world) (pids_file content : string) :
  w_fs w !! pids_file = Some (Regular content Readable) ->
  Forall (fun t => digits_value 0 t <= INT_MAX)
         (pid_tokens (universal_newlines content)) ->
  exists n, count_running w pids_file = Ok n
            /\ 0 <= n
               <= Z.of_nat (length (pid_tokens (universal_newlines content))).
Proof.
  intros Hf Hrange. unfold count_running, os_path_isfile. rewrite Hf.
  destruct (is_empty pids_file); [exists 0; split; [reflexivity | lia]|].
  simpl. rewrite (open_seek_read_readable w pids_file content 0 Hf ltac:(lia)).
  change (str_drop (Z.to_nat 0) content) with content.
  set (text := universal_newlines content) in *. simpl.
  change (List.filter isdigit (map strip (file_lines text)))
    with (pid_tokens text).
  rewrite mapM_py_int_tokens. simpl.
  assert (Hnn : forall t acc, 0 <= acc -> all_digits t = true ->
                 0 <= digits_value acc t).
  { induction t as [|c t IH]; intros acc Hacc Hd; simpl in *; [lia|].
    apply andb_prop in Hd as [Hc Hd]. apply IH; [|exact Hd].
    unfold is_digit in Hc. apply andb_prop in Hc as [H1 H2].
    apply Nat.leb_le in H1. lia. }
  assert (Hdig : Forall (fun t => isdigit t = true) (pid_tokens text)).
  { unfold pid_tokens. apply List.Forall_forall. intros t Ht.
    apply List.filter_In in Ht. tauto. }
  rewrite mapM_process_exists.
  - simpl. eexists. split; [reflexivity|].
    unfold count_true. split; [lia|].
    apply inj_le. etransitivity; [apply List.filter_length_le|].
    now rewrite !length_map.
  - induction (pid_tokens text) as [|t ts IH]; simpl; constructor.
    + inversion Hrange as [|? ? Ht Hts]; subst.
      inversion Hdig as [|? ? Hd Hds]; subst.
      unfold isdigit in Hd. apply andb_prop in Hd as [_ Hd].
      pose proof (Hnn t 0 ltac:(lia) Hd). cbv beta in Ht.
      unfold INT_MAX in *. lia.
    + inversion Hrange; inversion Hdig; subst. now apply IH.
Qed.

(** C7.  On a PID file with a line holding the number 2147483648, which is
    beyond every process id, [count_running] does not return: the
    OverflowError of the probe is not among the exceptions it handles. *)
Theorem count_running_overflow :
  count_running overflow_world "/run/pids" = Raise OverflowError.
Proof. vm_compute. reflexivity. Qed.

(** ** Status bar *)

Lemma draw_status_bar_frame (cfg : config) (w : world) (st st' : viewer) :
  draw_status_bar cfg w st = Ok st' ->
  instance_buffers st' = instance_buffers st
  /\ file_positions st' = file_positions st
  /\ current st' = current st
  /\ status_redraw_counter st' = status_redraw_counter st.
Proof.
  unfold draw_status_bar.
  destruct (count_running w (pids_file cfg)) as [running|e]; simpl;
    [|discriminate].
  destruct (addstr _ _ _ _ _) as [scr [|]]; [discriminate|].
  intros [= <-]. repeat split.
Qed.

Lemma draw_status_bar_ok (cfg : config) (w : world) (st : viewer) (running : Z) :
  2 <= height cfg ->
  count_running w (pids_file cfg) = Ok running ->
  draw_status_bar cfg w st
  = Ok (set_stdscr st
          {| w_rows :=
               <[0 := (slice_to
                         (STATUS_BAR_FORMAT running (count cfg)
                            (count cfg - running) (current st) (count cfg))
                         (width cfg - 1), true)]>
                 (delete 0 (w_rows (stdscr st)));
             w_reverse := false |}).
Proof.
  intros Hh Hlive. unfold draw_status_bar. rewrite Hlive. simpl.
  unfold addstr.
  destruct ((0 <? 0) || (height cfg <=? 0)) eqn:E; [lia|].
  destruct (0 =? height cfg - 1) eqn:E'; [lia|]. reflexivity.
Qed.

(** C3 (amended).  On a screen of at least 3 rows, whenever the liveness
    monitor answers [running], drawing the status bar puts on row 0, in
    reverse video, the status line with its placeholders filled in, cut to
    its first [width - 1] characters, one less than the screen is wide; the
    other rows, the buffers, the offsets and the watched instance are as
    before.  With a PID file of two running processes and one that does not
    exist, 3 instances and a screen of 100 columns, row 0 reads
    " [ Instances: 2/3 running, 1 stopped | Watching: Instance 1 | Keys: 1-3
    switch, q quit ] ". *)
Theorem status_bar_row (cfg : config) (w : world) (st : viewer) (running : Z) :
  3 <= height cfg ->
  count_running w (pids_file cfg) = Ok running ->
  (exists st',
     draw_status_bar cfg w st = Ok st'
     /\ w_rows (stdscr st') !! 0
        = Some (slice_to
                  (" [ Instances: " +:+ str_of_int running +:+ "/"
                   +:+ str_of_int (count cfg) +:+ " running, "
                   +:+ str_of_int (count cfg - running) +:+ " stopped | "
                   +:+ "Watching: Instance " +:+ str_of_int (current st)
                   +:+ " | Keys: 1-" +:+ str_of_int (count cfg)
                   +:+ " switch, q quit ] ")
                  (width cfg - 1), true)
     /\ (forall r, r <> 0 -> w_rows (stdscr st') !! r = w_rows (stdscr st) !! r)
     /\ instance_buffers st' = instance_buffers st
     /\ file_positions st' = file_positions st
     /\ current st' = current st)
  /\ (exists st',
        draw_status_bar (pids_config 100) pids_world demo_viewer = Ok st'
        /\ w_rows (stdscr st') !! 0 = Some (status_2_of_3, true)).
Proof.
  intros Hh Hlive. split.
  - eexists. split; [apply (draw_status_bar_ok cfg w st running); [lia | exact Hlive]|].
    simpl. split; [apply lookup_insert_eq|]. split; [|repeat split].
    intros r Hr. rewrite lookup_insert_ne by congruence.
    now rewrite lookup_delete_ne by congruence.
  - eexists. split; [vm_compute; reflexivity|]. vm_compute. reflexivity.
Qed.

Lemma status_bar_row_witness :
  exists st',
    draw_status_bar (pids_config 80) pids_world demo_viewer = Ok st'
    /\ w_rows (stdscr st') !! 0 = Some (slice_to status_2_of_3 79, true).
Proof.
  destruct (status_bar_row (pids_config 80) pids_world demo_viewer 2)
    as [(st' & Hdraw & Hrow & _) _].
  - simpl. lia.
  - vm_compute. reflexivity.
  - exists st'. split; [exact Hdraw|]. rewrite Hrow. vm_compute. reflexivity.
Defined.

(** C3, as stated, fails on a screen exactly as wide as the status line:
    with 89 columns the 89 characters of the line of the example fit the
    screen width, yet row 0 holds only the first 88 of them. *)
Lemma status_bar_width_counterexample :
  len status_2_of_3 = 89
  /\ width (pids_config 89) = 89
  /\ count_running pids_world (pids_file (pids_config 89)) = Ok 2
  /\ exists st',
       draw_status_bar (pids_config 89) pids_world demo_viewer = Ok st'
       /\ w_rows (stdscr st') !! 0 = Some (slice_to status_2_of_3 88, true)
       /\ w_rows (stdscr st') !! 0
          <> Some (slice_to status_2_of_3 (width (pids_config 89)), true).
Proof.
  split; [reflexivity|]. split; [reflexivity|]. split; [vm_compute; reflexivity|].
  eexists. split; [vm_compute; reflexivity|].
  split; [vm_compute; reflexivity|]. vm_compute. discriminate.
Qed.

(** ** One iteration of the main loop *)

Lemma append_lines_ok (cur : Z) (lines buf : list string)
    (bufs : gmap Z (list string)) :
  bufs !! cur = Some buf ->
  append_lines cur lines bufs = Ok (<[cur := (buf ++ lines)%list]> bufs).
Proof.
  revert buf bufs. induction lines as [|line rest IH]; intros buf bufs Hb; simpl.
  - rewrite app_nil_r, insert_id by exact Hb. reflexivity.
  - unfold getitem. rewrite Hb. simpl.
    rewrite (IH (buf ++ [line])%list) by apply lookup_insert_eq.
    rewrite insert_insert_eq, <- app_assoc. reflexivity.
Qed.

(** A key that is neither a quit key nor the digit of another instance
    leaves the iteration to the content refresh. *)
Lemma iteration_idle (cfg : config) (ev : event) (st : viewer) :
  is_quit (ev_getch ev) = false ->
  is_switch cfg st (ev_getch ev) = false ->
  iteration cfg ev st = refresh_content cfg (ev_world ev) st.
Proof.
  unfold iteration, is_quit, is_switch.
  destruct (ev_getch ev) as [ch|]; intros Hq Hs.
  - rewrite Hq.
    destruct ((ch >=? ord_1) && (ch <=? ord_9)); [|reflexivity].
    simpl in Hs. rewrite Hs. reflexivity.
  - reflexivity.
Qed.

(** What the content refresh does to the viewer when it completes: the
    watched instance stays, its buffer gains the lines of the text read, its
    offset becomes the position read to, and nothing else changes in the
    buffers and offsets. *)
Lemma refresh_content_effect (cfg : config) (w : world) (st : viewer)
    (buf : list string) (txt : string) (np : Z) (c : control viewer) :
  instance_buffers st !! current st = Some buf ->
  read_new_lines w (log_path cfg (current st))
    (default 0 (file_positions st !! current st)) = Ok (txt, np) ->
  refresh_content cfg w st = Ok c ->
  exists st',
    c = Continue st'
    /\ current st' = current st
    /\ instance_buffers st'
       = <[current st := (buf ++ splitlines txt)%list]> (instance_buffers st)
    /\ file_positions st' = <[current st := np]> (file_positions st).
Proof.
  intros Hbuf Hread. unfold refresh_content. rewrite Hread. simpl.
  destruct (is_empty txt) eqn:Etxt; simpl.
  - apply is_empty_true in Etxt. subst txt. simpl.
    rewrite app_nil_r, (insert_id (instance_buffers st) _ _ Hbuf).
    destruct (status_redraw_counter st + 1 >=? 40).
    + destruct (draw_status_bar _ _ _) as [st'|e] eqn:Ed; simpl; [|discriminate].
      apply draw_status_bar_frame in Ed as (Hb & Hp & Hc & _). simpl in *.
      intros [= <-]. eauto.
    + intros [= <-]. eexists. repeat split.
  - rewrite (append_lines_ok _ _ _ _ Hbuf). simpl.
    unfold getitem. rewrite lookup_insert_eq. simpl.
    destruct (status_redraw_counter st + 1 >=? 40).
    + destruct (draw_status_bar _ _ _) as [st'|e] eqn:Ed; simpl; [|discriminate].
      apply draw_status_bar_frame in Ed as (Hb & Hp & Hc & _). simpl in *.
      intros [= <-]. eauto.
    + intros [= <-]. eexists. repeat split.
Qed.

(** The content refresh completes when the screen has its 3 rows, the stored
    offset is not negative and the liveness monitor answers. *)
Lemma refresh_content_completes (cfg : config) (w : world) (st : viewer)
    (buf : list string) (running : Z) :
  2 <= height cfg ->
  instance_buffers st !! current st = Some buf ->
  0 <= default 0 (file_positions st !! current st) ->
  count_running w (pids_file cfg) = Ok running ->
  exists st', refresh_content cfg w st = Ok (Continue st').
Proof.
  intros Hh Hbuf Hpos Hlive.
  destruct (read_new_lines_total w (log_path cfg (current st)) _ Hpos)
    as (txt & np & Hread & _).
  unfold refresh_content. rewrite Hread. simpl.
  destruct (is_empty txt) eqn:Etxt; simpl.
  - destruct (status_redraw_counter st + 1 >=? 40); [|eauto].
    rewrite (draw_status_bar_ok _ _ _ running Hh Hlive). simpl. eauto.
  - rewrite (append_lines_ok _ _ _ _ Hbuf). simpl.
    unfold getitem. rewrite lookup_insert_eq. simpl.
    destruct (status_redraw_counter st + 1 >=? 40); [|eauto].
    rewrite (draw_status_bar_ok _ _ _ running Hh Hlive). simpl. eauto.
Qed.

(** ** Exactly-once incremental read *)

(** C1.  Let the buffer of the watched instance hold exactly the text of its
    log up to the stored offset, and let the log then hold that text followed
    by "hello" and a line feed.  An iteration of the main loop that gets no
    command (on a screen of 3 rows or more, with a liveness monitor that
    answers) completes, adds "hello\n" to the buffer as one new last line,
    leaves the buffers of the other instances alone and increases the offset
    by the 6 characters appended, so that the buffer again holds exactly the
    text of the log up to the offset.  A further such iteration with the log
    unchanged leaves all buffers and offsets as they are. *)
Theorem exactly_once_read (cfg : config) (st : viewer) (ev1 ev2 : event)
    (buf : list string) (content : string) (running1 running2 : Z) :
  3 <= height cfg ->
  instance_buffers st !! current st = Some buf ->
  String.concat "" buf = content ->
  default 0 (file_positions st !! current st) = len content ->
  w_fs (ev_world ev1) !! log_path cfg (current st)
    = Some (Regular (content +:+ hello_line) Readable) ->
  w_fs (ev_world ev2) !! log_path cfg (current st)
    = Some (Regular (content +:+ hello_line) Readable) ->
  is_quit (ev_getch ev1) = false -> is_switch cfg st (ev_getch ev1) = false ->
  is_quit (ev_getch ev2) = false -> is_switch cfg st (ev_getch ev2) = false ->
  count_running (ev_world ev1) (pids_file cfg) = Ok running1 ->
  count_running (ev_world ev2) (pids_file cfg) = Ok running2 ->
  exists st1 st2,
    iteration cfg ev1 st = Ok (Continue st1)
    /\ current st1 = current st
    /\ instance_buffers st1 !! current st = Some (buf ++ [hello_line])%list
    /\ (forall i, i <> current st ->
          instance_buffers st1 !! i = instance_buffers st !! i)
    /\ file_positions st1 !! current st
       = Some (default 0 (file_positions st !! current st) + 6)
    /\ String.concat "" (buf ++ [hello_line]) = content +:+ hello_line
    /\ len content + 6 = len (content +:+ hello_line)
    /\ iteration cfg ev2 st1 = Ok (Continue st2)
    /\ instance_buffers st2 = instance_buffers st1
    /\ file_positions st2 = file_positions st1
    /\ current st2 = current st1.
Proof.
  intros Hh Hbuf Hsync Hoff Hf1 Hf2 Hq1 Hs1 Hq2 Hs2 Hl1 Hl2.
  assert (Hlen : len (content +:+ hello_line) = len content + 6).
  { rewrite len_append. reflexivity. }
  assert (Hread1 :
    read_new_lines (ev_world ev1) (log_path cfg (current st))
      (default 0 (file_positions st !! current st))
    = Ok (hello_line, len content + 6)).
  { rewrite Hoff, (read_new_lines_readable _ _ _ _ Hf1 (len_nonneg _)).
    unfold len at 1. rewrite Nat2Z.id, str_drop_append. f_equal. f_equal. lia. }
  rewrite (iteration_idle cfg ev1 st Hq1 Hs1).
  destruct (refresh_content_completes cfg (ev_world ev1) st buf running1)
    as (st1 & Hst1); [lia | exact Hbuf | rewrite Hoff; apply len_nonneg
                     | exact Hl1 |].
  destruct (refresh_content_effect _ _ _ _ _ _ _ Hbuf Hread1 Hst1)
    as (st1' & [= <-] & Hc1 & Hb1 & Hp1).
  change (splitlines hello_line) with [hello_line] in Hb1.
  assert (Hbuf1 : instance_buffers st1 !! current st1
                  = Some (buf ++ [hello_line])%list).
  { rewrite Hb1, Hc1. apply lookup_insert_eq. }
  assert (Hoff1 : default 0 (file_positions st1 !! current st1)
                  = len (content +:+ hello_line)).
  { rewrite Hp1, Hc1, lookup_insert_eq. simpl. lia. }
  assert (Hread2 :
    read_new_lines (ev_world ev2) (log_path cfg (current st1))
      (default 0 (file_positions st1 !! current st1))
    = Ok ("", len content + 6)).
  { rewrite Hoff1, Hc1,
      (read_new_lines_readable _ _ _ _ Hf2 (len_nonneg _)).
    rewrite str_drop_all by (unfold len; lia). f_equal. f_equal. lia. }
  assert (Hs2' : is_switch cfg st1 (ev_getch ev2) = false).
  { unfold is_switch in *. now rewrite Hc1. }
  destruct (refresh_content_completes cfg (ev_world ev2) st1
              (buf ++ [hello_line])%list running2)
    as (st2 & Hst2); [lia | exact Hbuf1 | rewrite Hoff1; apply len_nonneg
                     | exact Hl2 |].
  destruct (refresh_content_effect _ _ _ _ _ _ _ Hbuf1 Hread2 Hst2)
    as (st2' & [= <-] & Hc2 & Hb2 & Hp2).
  exists st1, st2. repeat split.
  - exact Hst1.
  - exact Hc1.
  - now rewrite <- Hc1.
  - intros i Hi. rewrite Hb1. now apply lookup_insert_ne.
  - rewrite Hp1, lookup_insert_eq, Hoff. reflexivity.
  - rewrite concat_app, Hsync. simpl. reflexivity.
  - lia.
  - rewrite (iteration_idle cfg ev2 st1 Hq2 Hs2'). exact Hst2.
  - rewrite Hb2. simpl. rewrite app_nil_r. now apply insert_id.
  - rewrite Hp2, Hp1, Hc1. apply insert_insert_eq.
  - exact Hc2.
Qed.

Lemma exactly_once_read_witness :
  exists st1 st2,
    iteration demo_config (key_event hello_world (-1)) caught_up_viewer
      = Ok (Continue st1)
    /\ instance_buffers st1 !! 1 = Some (splitlines demo_log ++ [hello_line])%list
    /\ file_positions st1 !! 1 = Some 10
    /\ iteration demo_config (key_event hello_world (-1)) st1 = Ok (Continue st2)
    /\ instance_buffers st2 = instance_buffers st1
    /\ file_positions st2 = file_positions st1.
Proof.
  destruct (exactly_once_read demo_config caught_up_viewer
              (key_event hello_world (-1)) (key_event hello_world (-1))
              (splitlines demo_log) demo_log 0 0)
    as (st1 & st2 & H1 & _ & Hb & _ & Hp & _ & _ & H2 & Hb2 & Hp2 & _);
    try (vm_compute; reflexivity).
  - simpl. lia.
  - exists st1, st2. repeat split; assumption.
Defined.

(** ** Switching between instances *)

Lemma iteration_switch (cfg : config) (ev : event) (st : viewer) (ch : Z) :
  ev_getch ev = Key ch ->
  is_quit (ev_getch ev) = false ->
  is_switch cfg st (ev_getch ev) = true ->
  iteration cfg ev st = switch_instance cfg (ev_world ev) (ch - ord_0) st.
Proof.
  unfold iteration, is_quit, is_switch. intros -> Hq Hs. rewrite Hq.
  apply andb_prop in Hs as [-> ->]. reflexivity.
Qed.

Lemma is_switch_digit (cfg : config) (st : viewer) (d : Z) :
  1 <= d <= 9 -> d <= count cfg -> d <> current st ->
  is_switch cfg st (Key (ord_0 + d)) = true.
Proof.
  intros Hd Hc Hne. unfold is_switch, ord_0, ord_1, ord_9.
  replace (48 + d - 48) with d by lia.
  repeat (apply andb_true_intro; split);
    rewrite ?Z.geb_le, ?Z.leb_le, ?negb_true_iff, ?Z.eqb_neq; lia.
Qed.

Lemma is_quit_digit (d : Z) : 1 <= d <= 9 -> is_quit (Key (ord_0 + d)) = false.
Proof.
  intros Hd. unfold is_quit, ord_0, ord_q, ord_Q.
  rewrite !orb_false_iff, !Z.eqb_neq. lia.
Qed.

(** In the model hydration always completes; it either leaves the viewer
    alone or replaces the buffer and the offset of the instance by the lines
    and the number of characters of the text of its whole log. *)
Lemma load_entire_log_effect (cfg : config) (w : world) (i : Z) (st : viewer) :
  exists st',
    load_entire_log cfg w i st = Ok st'
    /\ current st' = current st
    /\ status_redraw_counter st' = status_redraw_counter st
    /\ stdscr st' = stdscr st
    /\ (st' = st
        \/ exists content,
             w_fs w !! log_path cfg i = Some (Regular content Readable)
             /\ instance_buffers st'
                = <[i := splitlines (universal_newlines content)]>
                    (instance_buffers st)
             /\ file_positions st'
                = <[i := len (universal_newlines content)]> (file_positions st)).
Proof.
  unfold load_entire_log, os_path_isfile, open_seek_read.
  destruct (w_fs w !! log_path cfg i) as [[content [| |]|]|] eqn:E; simpl;
    try (exists st; repeat split; now left).
  eexists. split; [reflexivity|]. repeat split. right. exists content.
  repeat split.
Qed.






(** ** A digit beyond the number of instances *)





(** ** Exit status *)

Lemma refresh_content_continues (cfg : config) (w : world) (st : viewer)
    (c : control viewer) :
  refresh_content cfg w st = Ok c -> exists st', c = Continue st'.
Proof.
  unfold refresh_content.
  destruct (read_new_lines _ _ _) as [[txt np]|e]; simpl; [|discriminate].
  destruct (negb (is_empty txt)).
  - destruct (append_lines _ _ _) as [bufs|e]; simpl; [|discriminate].
    destruct (getitem _ _) as [buf|e]; simpl; [|discriminate].
    destruct (_ >=? 40).
    + destruct (draw_status_bar _ _ _); simpl; [|discriminate].
      intros [= <-]. eauto.
    + intros [= <-]. eauto.
  - simpl. destruct (_ >=? 40).
    + destruct (draw_status_bar _ _ _); simpl; [|discriminate].
      intros [= <-]. eauto.
    + intros [= <-]. eauto.
Qed.

Lemma switch_instance_continues (cfg : config) (w : world) (idx : Z)
    (st : viewer) (c : control viewer) :
  switch_instance cfg w idx st = Ok c -> exists st', c = Continue st'.
Proof.
  unfold switch_instance.
  destruct (getitem _ _) as [buf|e]; simpl; [|discriminate].
  destruct (match buf with [] => _ | _ => _ end) as [st1|e]; simpl;
    [|discriminate].
  destruct (draw_status_bar _ _ _) as [st2|e]; simpl; [|discriminate].
  destruct (getitem _ _) as [buf2|e]; simpl; [|discriminate].
  intros [= <-]. eauto.
Qed.

(** Only a quit key makes an iteration return, and it returns 0. *)
Lemma iteration_return (cfg : config) (ev : event) (st : viewer) (code : Z) :
  iteration cfg ev st = Ok (Return code) ->
  code = 0 /\ is_quit (ev_getch ev) = true.
Proof.
  destruct (is_quit (ev_getch ev)) eqn:Hq.
  - rewrite (iteration_quit _ _ _ Hq). intros [= <-]. split; reflexivity.
  - unfold iteration. unfold is_quit in Hq.
    destruct (ev_getch ev) as [ch|].
    + rewrite Hq.
      destruct ((ch >=? ord_1) && (ch <=? ord_9));
        [destruct (_ && negb _)|]; intros H;
        first [apply refresh_content_continues in H
              | apply switch_instance_continues in H];
        destruct H as [st' H]; discriminate H.
    + simpl. intros H. apply refresh_content_continues in H.
      destruct H as [st' H]; discriminate H.
Qed.

Lemma main_loop_returned (cfg : config) (events : list event) (st : viewer)
    (code : Z) :
  main_loop cfg events st = Ok (Returned code) ->
  code = 0
  /\ exists pre ev rest st',
       events = (pre ++ ev :: rest)%list
       /\ main_loop cfg pre st = Ok (Running st')
       /\ is_quit (ev_getch ev) = true.
Proof.
  revert st. induction events as [|ev events IH]; intros st; simpl.
  - discriminate.
  - destruct (iteration cfg ev st) as [[st1|code1]|e] eqn:E; simpl;
      [|intros [= <-]|discriminate].
    + intros H. destruct (IH st1 H) as (-> & pre & ev' & rest & st' & -> & Hp & Hq).
      split; [reflexivity|]. exists (ev :: pre), ev', rest, st'.
      split; [reflexivity|]. split; [|exact Hq]. simpl. rewrite E. exact Hp.
    + apply iteration_return in E as [-> Hq].
      split; [reflexivity|]. exists [], ev, events, st. repeat split. exact Hq.
Qed.

Lemma run_curses_returned (cfg : config) (w0 : world) (events : list event)
    (code : Z) :
  run_curses cfg w0 events = Ok (Returned code) ->
  (code = 1 /\ height cfg < 3)
  \/ (code = 0 /\ 3 <= height cfg
      /\ exists st0 pre ev rest st,
           start_curses cfg w0 = Ok st0
           /\ events = (pre ++ ev :: rest)%list
           /\ main_loop cfg pre st0 = Ok (Running st)
           /\ is_quit (ev_getch ev) = true).
Proof.
  unfold run_curses. destruct (height cfg <? 3) eqn:Eh.
  - intros [= <-]. left. split; [reflexivity | lia].
  - destruct (start_curses cfg w0) as [st0|e]; simpl; [|discriminate].
    intros H. apply main_loop_returned in H
      as (-> & pre & ev & rest & st & -> & Hpre & Hq).
    right. split; [reflexivity|]. split; [lia|].
    exists st0, pre, ev, rest, st. repeat split; assumption.
Qed.

(** C8 (amended).  [main] returns 1 exactly when [count] is outside 1..9, or
    the log directory does not exist, or, in interactive mode, the screen has
    fewer than 3 rows.  It returns 0 exactly on an orderly quit: in
    interactive mode, on a screen of 3 rows or more, when the loop reads a
    quit key.  It returns no other status, and in fallback mode, once the
    arguments are accepted, it returns no status at all. *)
Theorem exit_status (inv : invocation) (events : list event) :
  let cfg := args inv in
  let interactive := curses_present inv && stdout_isatty inv in
  (main inv events = Ok (Exit 1)
   <-> (count cfg < 1 \/ 9 < count cfg
        \/ os_path_isdir (boot inv) (log_dir cfg) = false
        \/ (interactive = true /\ height cfg < 3)))
  /\ (main inv events = Ok (Exit 0)
      <-> (1 <= count cfg <= 9
           /\ os_path_isdir (boot inv) (log_dir cfg) = true
           /\ interactive = true
           /\ 3 <= height cfg
           /\ exists st0 pre ev rest st,
                start_curses cfg (boot inv) = Ok st0
                /\ events = (pre ++ ev :: rest)%list
                /\ main_loop cfg pre st0 = Ok (Running st)
                /\ is_quit (ev_getch ev) = true))
  /\ (forall code, main inv events = Ok (Exit code) -> code = 0 \/ code = 1)
  /\ (interactive = false ->
      1 <= count cfg <= 9 ->
      os_path_isdir (boot inv) (log_dir cfg) = true ->
      forall code, main inv events <> Ok (Exit code)).
Proof.
  intros cfg interactive.
  assert (Hcases :
    forall code, main inv events = Ok (Exit code) ->
      (code = 1 /\ (count cfg < 1 \/ 9 < count cfg))
      \/ (code = 1 /\ 1 <= count cfg <= 9
          /\ os_path_isdir (boot inv) (log_dir cfg) = false)
      \/ (1 <= count cfg <= 9
          /\ os_path_isdir (boot inv) (log_dir cfg) = true
          /\ interactive = true
          /\ run_curses cfg (boot inv) events = Ok (Returned code))).
  { intros code. unfold main. fold cfg. fold interactive.
    destruct ((count cfg <? 1) || (count cfg >? 9)) eqn:Ec.
    { intros [= <-]. left. split; [reflexivity|].
      apply orb_prop in Ec as [Ec | Ec]; lia. }
    apply orb_false_elim in Ec as [Ec1 Ec2].
    destruct (os_path_isdir (boot inv) (log_dir cfg)) eqn:Ed; simpl.
    2:{ intros [= <-]. right. left. repeat split; lia. }
    destruct interactive eqn:Ei.
    - destruct (run_curses cfg (boot inv) events) as [[c|st]|e] eqn:Er; simpl;
        try discriminate.
      intros [= <-]. right. right. repeat split; try lia.
    - intros H. exfalso.
      destruct (run_fallback cfg (boot inv) (map ev_world events))
        as [[c|st]|e] eqn:Er; simpl in H; try discriminate.
      exact (run_fallback_not_returned _ _ _ _ Er). }
  split; [|split; [|split]].
  - split.
    + intros H. destruct (Hcases 1 H) as [[_ Hc] | [(_ & _ & Hd) | (Hc & Hd & Hi & Hr)]].
      * tauto.
      * tauto.
      * apply run_curses_returned in Hr as [[_ Hh] | [Hcode _]];
          [tauto | discriminate].
    + intros H. unfold main. fold cfg. fold interactive.
      destruct ((count cfg <? 1) || (count cfg >? 9)) eqn:Ec; [reflexivity|].
      apply orb_false_elim in Ec as [Ec1 Ec2].
      destruct (os_path_isdir (boot inv) (log_dir cfg)) eqn:Ed; simpl;
        [|reflexivity].
      destruct H as [H | [H | [H | [Hi Hh]]]]; try lia; try discriminate.
      rewrite Hi. unfold run_curses.
      destruct (height cfg <? 3) eqn:Eh; [reflexivity | lia].
  - split.
    + intros H. destruct (Hcases 0 H) as [[Hc _] | [(Hc & _) | (Hc & Hd & Hi & Hr)]];
        try discriminate.
      apply run_curses_returned in Hr as [[Hcode _] | (_ & Hh & Hex)];
        [discriminate|]. tauto.
    + intros (Hc & Hd & Hi & Hh & st0 & pre & ev & rest & st & Hs & -> & Hpre & Hq).
      unfold main. fold cfg. fold interactive.
      destruct ((count cfg <? 1) || (count cfg >? 9)) eqn:Ec.
      { apply orb_prop in Ec as [Ec | Ec]; lia. }
      rewrite Hd, Hi. simpl. unfold run_curses.
      destruct (height cfg <? 3) eqn:Eh; [lia|].
      rewrite Hs. simpl. rewrite (main_loop_app _ _ _ _ _ Hpre). simpl.
      rewrite (iteration_quit _ _ _ Hq). reflexivity.
  - intros code H.
    destruct (Hcases code H) as [[-> _] | [(-> & _) | (_ & _ & _ & Hr)]];
      [tauto | tauto |].
    apply run_curses_returned in Hr as [[-> _] | [-> _]]; tauto.
  - intros Hi Hc Hd code H.
    destruct (Hcases code H) as [[_ Hc'] | [(_ & _ & Hd') | (_ & _ & Hi' & _)]];
      [lia | congruence | congruence].
Qed.

Lemma exit_status_witness :
  main demo_invocation [key_event demo_world (-1); key_event demo_world ord_Q]
  = Ok (Exit 0).
Proof.
  apply (proj1 (proj2 (exit_status demo_invocation
                         [key_event demo_world (-1); key_event demo_world ord_Q]))).
  split; [simpl; lia|].
  split; [vm_compute; reflexivity|]. split; [reflexivity|].
  split; [simpl; lia|].
  eexists _, [key_event demo_world (-1)], (key_event demo_world ord_Q), [], _.
  split; [vm_compute; reflexivity|]. split; [reflexivity|].
  split; [vm_compute; reflexivity | reflexivity].
Defined.

(** C8, as stated, fails on a small screen: in interactive mode, with 3
    instances and an existing log directory, a terminal of 2 rows makes
    [main] return 1. *)
Lemma exit_status_counterexample :
  main small_screen_invocation [] = Ok (Exit 1)
  /\ 1 <= count (args small_screen_invocation) <= 9
  /\ os_path_isdir (boot small_screen_invocation)
       (log_dir (args small_screen_invocation)) = true
  /\ curses_present small_screen_invocation
     && stdout_isatty small_screen_invocation = true.
Proof.
  split; [vm_compute; reflexivity|]. split; [simpl; lia|].
  split; [vm_compute; reflexivity | reflexivity].
Qed.

(** ** Reachable states *)

Lemma empty_buffers_lookup (n i : Z) :
  1 <= i <= n -> empty_buffers n !! i = Some [].
Proof.
  intros Hi. unfold empty_buffers. apply elem_of_list_to_map.
  - rewrite <- list_fmap_compose.
    apply NoDup_fmap_2; [|apply NoDup_seq].
    intros a b. simpl. lia.
  - apply list_elem_of_fmap. exists (Z.to_nat (i - 1)).
    split; [f_equal; lia|]. apply elem_of_seq. lia.
Qed.

Lemma switch_instance_frame (cfg : config) (w : world) (idx : Z) (st : viewer)
    (buf : list string) (c : control viewer) :
  instance_buffers st !! idx = Some buf ->
  switch_instance cfg w idx st = Ok c ->
  exists st',
    c = Continue st'
    /\ current st' = idx
    /\ (forall i, i <> idx ->
          instance_buffers st' !! i = instance_buffers st !! i
          /\ file_positions st' !! i = file_positions st !! i)
    /\ is_Some (instance_buffers st' !! idx)
    /\ (positions_ok st -> positions_ok st').
Proof.
  intros Hbuf. unfold switch_instance. simpl.
  unfold getitem at 1. simpl. rewrite Hbuf. simpl.
  assert (Hload : exists st1,
    match buf with
    | [] => load_entire_log cfg w idx (set_current st idx)
    | _ :: _ => Ok (set_current st idx)
    end = Ok st1
    /\ current st1 = idx
    /\ (forall i, i <> idx ->
          instance_buffers st1 !! i = instance_buffers st !! i
          /\ file_positions st1 !! i = file_positions st !! i)
    /\ is_Some (instance_buffers st1 !! idx)
    /\ (positions_ok st -> positions_ok st1)).
  { destruct buf as [|l buf].
    - destruct (load_entire_log_effect cfg w idx (set_current st idx))
        as (st1 & Hl & Hc & _ & _ & [-> | (content & _ & Hb & Hp)]).
      + exists (set_current st idx). repeat split; simpl; eauto.
      + exists st1. split; [exact Hl|]. split; [exact Hc|].
        rewrite Hb, Hp. simpl. split; [|split].
        * intros i Hi. now rewrite !lookup_insert_ne by congruence.
        * rewrite lookup_insert_eq. eauto.
        * intros Hok k v. unfold positions_ok in *. rewrite Hp. simpl.
          rewrite lookup_insert. case_decide.
          -- intros [= <-]. apply len_nonneg.
          -- apply Hok.
    - exists (set_current st idx). repeat split; simpl; eauto. }
  destruct Hload as (st1 & -> & Hc1 & Hf1 & Hs1 & Hok1). simpl.
  destruct (draw_status_bar cfg w st1) as [st2|e] eqn:Ed; simpl; [|discriminate].
  apply draw_status_bar_frame in Ed as (Hb & Hp & Hc & _).
  destruct (getitem _ _) as [buf2|e]; simpl; [|discriminate].
  intros [= <-]. eexists. split; [reflexivity|]. simpl.
  rewrite Hb, Hp, Hc. split; [exact Hc1|]. split; [exact Hf1|].
  split; [exact Hs1|]. intros Hok k v. simpl. rewrite Hp. now apply Hok1.
Qed.

(** Every iteration that continues keeps the viewer well formed. *)
Lemma iteration_well_formed (cfg : config) (ev : event) (st st' : viewer) :
  well_formed cfg st ->
  iteration cfg ev st = Ok (Continue st') ->
  well_formed cfg st'.
Proof.
  intros (Hcur & Hbufs & Hok) Hit.
  destruct (is_quit (ev_getch ev)) eqn:Hq.
  { rewrite (iteration_quit _ _ _ Hq) in Hit. discriminate. }
  destruct (is_switch cfg st (ev_getch ev)) eqn:Hs.
  - destruct (ev_getch ev) as [ch|] eqn:Hk; [|discriminate].
    rewrite (iteration_switch cfg ev st ch Hk) in Hit
      by (rewrite Hk; assumption).
    unfold is_switch in Hs.
    apply andb_prop in Hs as [_ Hs]. apply andb_prop in Hs as [Hs _].
    apply andb_prop in Hs as [Hlo Hhi].
    apply Z.leb_le in Hlo, Hhi.
    destruct (Hbufs (ch - ord_0) ltac:(lia)) as [buf Hbuf].
    destruct (switch_instance_frame _ _ _ _ _ _ Hbuf Hit)
      as (st1 & [= <-] & Hc & Hf & Hsome & Hok').
    split; [rewrite Hc; lia|]. split; [|now apply Hok'].
    intros i Hi. destruct (decide (i = ch - ord_0)) as [-> | Hne].
    + exact Hsome.
    + destruct (Hf i Hne) as [-> _]. now apply Hbufs.
  - rewrite (iteration_idle cfg ev st Hq Hs) in Hit.
    destruct (Hbufs (current st) Hcur) as [buf Hbuf].
    assert (Hpos : 0 <= default 0 (file_positions st !! current st)).
    { destruct (file_positions st !! current st) as [v|] eqn:E; simpl;
        [exact (Hok _ _ E) | lia]. }
    destruct (read_new_lines_total (ev_world ev) (log_path cfg (current st)) _ Hpos)
      as (txt & np & Hread & Hle).
    destruct (refresh_content_effect _ _ _ _ _ _ _ Hbuf Hread Hit)
      as (st1 & [= <-] & Hc & Hb & Hp).
    split; [rewrite Hc; lia|]. split.
    + intros i Hi. rewrite Hb, lookup_insert. case_decide; [eauto|].
      now apply Hbufs.
    + intros k v. rewrite Hp, lookup_insert. case_decide.
      * intros [= <-]. lia.
      * apply Hok.
Qed.

(** The viewer enters its loop well formed, for the counts [main] accepts. *)
Lemma start_curses_well_formed (cfg : config) (w0 : world) (st : viewer) :
  1 <= count cfg ->
  start_curses cfg w0 = Ok st ->
  well_formed cfg st.
Proof.
  intros Hcount. unfold start_curses.
  destruct (draw_status_bar cfg w0 (initial_viewer cfg)) as [st1|e] eqn:Ed;
    simpl; [|discriminate].
  apply draw_status_bar_frame in Ed as (Hb1 & Hp1 & Hc1 & _).
  destruct (load_entire_log_effect cfg w0 1 st1)
    as (st2 & -> & Hc2 & _ & _ & Hload). simpl.
  destruct (getitem _ _) as [buf|e]; simpl; [|discriminate].
  intros [= <-]. unfold well_formed. simpl. rewrite Hc2, Hc1. simpl.
  split; [lia|].
  destruct Hload as [-> | (content & _ & Hb & Hp)].
  - rewrite Hb1. simpl. split.
    + intros i Hi. rewrite (empty_buffers_lookup _ _ Hi). eauto.
    + intros k v. simpl. rewrite Hp1. simpl. rewrite lookup_empty. discriminate.
  - rewrite Hb, Hb1. simpl. split.
    + intros i Hi. rewrite lookup_insert. case_decide; [eauto|].
      rewrite (empty_buffers_lookup _ _ Hi). eauto.
    + intros k v. simpl. rewrite Hp, Hp1. simpl. rewrite lookup_insert.
      case_decide.
      * intros [= <-]. apply len_nonneg.
      * rewrite lookup_empty. discriminate.
Qed.

(** Every state the interactive viewer reaches is well formed. *)
Lemma main_loop_well_formed (cfg : config) (events : list event)
    (st st' : viewer) :
  well_formed cfg st ->
  main_loop cfg events st = Ok (Running st') ->
  well_formed cfg st'.
Proof.
  revert st. induction events as [|ev events IH]; intros st Hwf; simpl.
  - now intros [= <-].
  - destruct (iteration cfg ev st) as [[st1|code]|e] eqn:E; simpl;
      try discriminate.
    apply IH. exact (iteration_well_formed _ _ _ _ Hwf E).
Qed.

(** * Further properties of the viewer *)

(** ** Hydration *)

(** X1.  Hydrating an instance whose log can be read and holds ASCII text
    replaces its buffer by the lines of the text of the log, which joined
    give that text back, and its offset by the number of characters of that
    text.  The text is the log with every CR LF and every other CR turned
    into LF: only for a log without CR is the buffer the log itself and the
    offset the size of the log.  The other instances, the watched instance
    and the screen are left alone.  When the log is not a readable regular
    file the viewer is left as it is. *)
Theorem hydrate_reflects_file (cfg : config) (w : world) (i : Z) (st : viewer) :
  (forall content,
     w_fs w !! log_path cfg i = Some (Regular content Readable) ->
     is_ascii content = true ->
     exists st',
       load_entire_log cfg w i st = Ok st'
       /\ instance_buffers st' !! i
          = Some (splitlines (universal_newlines content))
       /\ String.concat "" (splitlines (universal_newlines content))
          = universal_newlines content
       /\ file_positions st' !! i = Some (len (universal_newlines content))
       /\ len (universal_newlines content) <= len content
       /\ (no_CR content = true ->
           instance_buffers st' !! i = Some (splitlines content)
           /\ String.concat "" (splitlines content) = content
           /\ file_positions st' !! i = Some (len content))
       /\ (forall j, j <> i ->
             instance_buffers st' !! j = instance_buffers st !! j
             /\ file_positions st' !! j = file_positions st !! j)
       /\ current st' = current st
       /\ stdscr st' = stdscr st)
  /\ ((forall content,
         w_fs w !! log_path cfg i <> Some (Regular content Readable)) ->
      load_entire_log cfg w i st = Ok st).
Proof.
  split.
  - intros content Hf _. unfold load_entire_log, os_path_isfile.
    rewrite Hf. simpl.
    rewrite (open_seek_read_readable w _ content 0 Hf ltac:(lia)). simpl.
    eexists. split; [reflexivity|]. simpl.
    split; [apply lookup_insert_eq|]. split; [apply concat_splitlines|].
    split; [apply lookup_insert_eq|].
    split; [pose proof (universal_newlines_length content); unfold len; lia|].
    split; [|split; [|split; reflexivity]].
    + intros Hcr. rewrite (universal_newlines_no_CR _ Hcr), !lookup_insert_eq.
      split; [reflexivity|]. split; [apply concat_splitlines | reflexivity].
    + intros j Hj. now rewrite !lookup_insert_ne by congruence.
  - intros Hf. unfold load_entire_log, os_path_isfile, open_seek_read.
    destruct (w_fs w !! log_path cfg i) as [[content [| |]|]|] eqn:E; simpl;
      try reflexivity.
    exfalso. exact (Hf content eq_refl).
Qed.

Lemma hydrate_reflects_file_witness :
  exists st',
    load_entire_log demo_config demo_world 1 demo_viewer = Ok st'
    /\ instance_buffers st' !! 1 = Some (splitlines demo_log)
    /\ file_positions st' !! 1 = Some 4.
Proof.
  destruct (proj1 (hydrate_reflects_file demo_config demo_world 1 demo_viewer)
              demo_log)
    as (st' & Hl & Hb & _ & Hp & _).
  - vm_compute. reflexivity.
  - vm_compute. reflexivity.
  - exists st'. repeat split; assumption.
Defined.

(** ** Following a log that grows *)

Lemma is_switch_same_current (cfg : config) (st st' : viewer) (g : getch_result) :
  current st' = current st -> is_switch cfg st' g = is_switch cfg st g.
Proof. intros H. unfold is_switch. now rewrite H. Qed.

(** One iteration without a command, on a viewer whose watched buffer holds
    the text [prev] of its log and whose offset is the length of [prev]. *)
Lemma follow_step (cfg : config) (st : viewer) (ev : event) (buf : list string)
    (running : Z) :
  2 <= height cfg ->
  instance_buffers st !! current st = Some buf ->
  default 0 (file_positions st !! current st) = len (String.concat "" buf) ->
  is_quit (ev_getch ev) = false ->
  is_switch cfg st (ev_getch ev) = false ->
  count_running (ev_world ev) (pids_file cfg) = Ok running ->
  log_grows (log_path cfg (current st)) (String.concat "" buf) [ev_world ev] ->
  exists st' new,
    iteration cfg ev st = Ok (Continue st')
    /\ current st' = current st
    /\ instance_buffers st' = <[current st := (buf ++ new)%list]> (instance_buffers st)
    /\ String.concat "" (buf ++ new)
       = log_text (log_path cfg (current st)) (String.concat "" buf) [ev_world ev]
    /\ default 0 (file_positions st' !! current st')
       = len (String.concat "" (buf ++ new)).
Proof.
  intros Hh Hbuf Hoff Hq Hs Hlive Hgrow.
  rewrite (iteration_idle cfg ev st Hq Hs).
  assert (Hpos : 0 <= default 0 (file_positions st !! current st)).
  { rewrite Hoff. apply len_nonneg. }
  destruct (refresh_content_completes cfg (ev_world ev) st buf running
              Hh Hbuf Hpos Hlive) as (st' & Hst').
  simpl in Hgrow |- *.
  destruct (w_fs (ev_world ev) !! log_path cfg (current st))
    as [[c [| |]|]|] eqn:Ef.
  1: { destruct Hgrow as ([more ->] & Hplain & _).
       rewrite plain_text_append in Hplain. apply andb_prop in Hplain as [_ Hmore].
       assert (Hread :
         read_new_lines (ev_world ev) (log_path cfg (current st))
           (default 0 (file_positions st !! current st))
         = Ok (more, len (String.concat "" buf +:+ more))).
       { rewrite (read_new_lines_readable _ _ _ _ Ef Hpos), Hoff.
         unfold len at 1. rewrite Nat2Z.id, str_drop_append.
         rewrite (universal_newlines_plain _ Hmore).
         f_equal. f_equal. rewrite len_append. pose proof (len_nonneg more). lia. }
       destruct (refresh_content_effect _ _ _ _ _ _ _ Hbuf Hread Hst')
         as (st1 & [= <-] & Hc & Hb & Hp).
       exists st', (splitlines more). split; [exact Hst'|]. split; [exact Hc|].
       split; [exact Hb|].
       rewrite concat_app, concat_splitlines. split; [reflexivity|].
       rewrite Hp, Hc, lookup_insert_eq. reflexivity. }
  all: assert (Hread :
         read_new_lines (ev_world ev) (log_path cfg (current st))
           (default 0 (file_positions st !! current st))
         = Ok ("", default 0 (file_positions st !! current st)))
       by (apply read_new_lines_no_data; intros c'; rewrite Ef; congruence);
       destruct (refresh_content_effect _ _ _ _ _ _ _ Hbuf Hread Hst')
         as (st1 & [= <-] & Hc & Hb & Hp);
       exists st', []; split; [exact Hst'|]; split; [exact Hc|];
       split; [exact Hb|]; rewrite app_nil_r; split; [reflexivity|];
       rewrite Hp, Hc, lookup_insert_eq; exact Hoff.
Qed.

(** X2.  While the viewer gets no command and the watched log is only appended
    to, the watched buffer always holds exactly the text of the log and the
    offset its length: every character is read once, none is skipped.  The
    buffer only gains lines at its end, and the buffers of the other
    instances do not change. *)
Theorem log_followed_exactly (cfg : config) (events : list event)
    (st : viewer) (buf : list string) :
  3 <= height cfg ->
  instance_buffers st !! current st = Some buf ->
  default 0 (file_positions st !! current st) = len (String.concat "" buf) ->
  Forall (fun ev =>
            is_quit (ev_getch ev) = false
            /\ is_switch cfg st (ev_getch ev) = false
            /\ exists r, count_running (ev_world ev) (pids_file cfg) = Ok r)
         events ->
  log_grows (log_path cfg (current st)) (String.concat "" buf)
    (map ev_world events) ->
  exists st' new,
    main_loop cfg events st = Ok (Running st')
    /\ current st' = current st
    /\ instance_buffers st' !! current st = Some (buf ++ new)%list
    /\ String.concat "" (buf ++ new)
       = log_text (log_path cfg (current st)) (String.concat "" buf)
           (map ev_world events)
    /\ default 0 (file_positions st' !! current st)
       = len (String.concat "" (buf ++ new))
    /\ (forall i, i <> current st ->
          instance_buffers st' !! i = instance_buffers st !! i).
Proof.
  intros Hh. revert st buf.
  induction events as [|ev events IH]; intros st buf Hbuf Hoff Hall Hgrow.
  - exists st, []. simpl. rewrite app_nil_r. repeat split; assumption.
  - inversion Hall as [|? ? (Hq & Hs & r & Hr) Hrest]; subst.
    assert (Hgrow1 : log_grows (log_path cfg (current st))
                       (String.concat "" buf) [ev_world ev]).
    { simpl in Hgrow |- *.
      destruct (w_fs (ev_world ev) !! log_path cfg (current st))
        as [[c [| |]|]|]; tauto. }
    destruct (follow_step cfg st ev buf r ltac:(lia) Hbuf Hoff Hq Hs Hr Hgrow1)
      as (st1 & new1 & Hit & Hc1 & Hb1 & Htext1 & Hoff1).
    assert (Hbuf1 : instance_buffers st1 !! current st1 = Some (buf ++ new1)%list).
    { rewrite Hb1, Hc1. apply lookup_insert_eq. }
    assert (Hgrow' : log_grows (log_path cfg (current st1))
                       (String.concat "" (buf ++ new1)) (map ev_world events)
                     /\ log_text (log_path cfg (current st))
                          (String.concat "" buf) (map ev_world (ev :: events))
                        = log_text (log_path cfg (current st1))
                            (String.concat "" (buf ++ new1))
                            (map ev_world events)).
    { rewrite Hc1, Htext1. simpl in Hgrow |- *.
      destruct (w_fs (ev_world ev) !! log_path cfg (current st))
        as [[c [| |]|]|]; tauto. }
    destruct Hgrow' as [Hg' Ht'].
    destruct (IH st1 (buf ++ new1)%list Hbuf1 Hoff1) as
      (st' & new & Hloop & Hc' & Hb' & Htext' & Hoff' & Hframe'); [|exact Hg'|].
    { eapply Forall_impl; [exact Hrest|]. intros e (Hq' & Hs' & Hr').
      split; [exact Hq'|]. split; [|exact Hr'].
      now rewrite (is_switch_same_current cfg st st1 _ Hc1). }
    exists st', (new1 ++ new)%list.
    rewrite app_assoc.
    split; [simpl; rewrite Hit; exact Hloop|].
    split; [congruence|]. split; [now rewrite <- Hc1|].
    split; [now rewrite Ht', Htext'|]. split; [now rewrite <- Hc1|].
    intros i Hi. rewrite Hframe' by congruence. rewrite Hb1.
    now apply lookup_insert_ne.
Qed.

Lemma log_followed_exactly_witness :
  exists st' new,
    main_loop demo_config
      [key_event hello_world (-1); key_event hello_world (-1)]
      caught_up_viewer = Ok (Running st')
    /\ instance_buffers st' !! 1 = Some (splitlines demo_log ++ new)%list
    /\ String.concat "" (splitlines demo_log ++ new) = demo_log +:+ hello_line.
Proof.
  destruct (log_followed_exactly demo_config
              [key_event hello_world (-1); key_event hello_world (-1)]
              caught_up_viewer (splitlines demo_log))
    as (st' & new & Hloop & _ & Hb & Ht & _).
  - simpl. lia.
  - vm_compute. reflexivity.
  - vm_compute. reflexivity.
  - repeat constructor; exists 0; vm_compute; reflexivity.
  - vm_compute. split; [eexists; reflexivity|]. split; [reflexivity|].
    split; [exists ""; reflexivity|]. split; [reflexivity | exact I].
  - exists st', new. split; [exact Hloop|]. split; [exact Hb|].
    rewrite Ht. vm_compute. reflexivity.
Defined.

(** ** A log that was truncated *)

(** X3.  When the watched log has become shorter than the stored offset (it was
    truncated or replaced), an iteration without a command reads nothing:
    buffers and offsets stay as they are.  Once the log, plain text, has
    grown beyond the offset again, the next such iteration appends only the
    text that lies beyond the offset, so the text the new file holds before
    the old offset is never shown. *)
Theorem truncated_log_stalls (cfg : config) (st : viewer) (ev1 ev2 : event)
    (buf : list string) (short long : string) (r1 r2 : Z) :
  3 <= height cfg ->
  instance_buffers st !! current st = Some buf ->
  len short < default 0 (file_positions st !! current st) <= len long ->
  w_fs (ev_world ev1) !! log_path cfg (current st)
    = Some (Regular short Readable) ->
  w_fs (ev_world ev2) !! log_path cfg (current st)
    = Some (Regular long Readable) ->
  plain_text long = true ->
  plain_text (String.concat "" buf) = true ->
  is_quit (ev_getch ev1) = false -> is_switch cfg st (ev_getch ev1) = false ->
  is_quit (ev_getch ev2) = false -> is_switch cfg st (ev_getch ev2) = false ->
  count_running (ev_world ev1) (pids_file cfg) = Ok r1 ->
  count_running (ev_world ev2) (pids_file cfg) = Ok r2 ->
  exists st1 st2,
    iteration cfg ev1 st = Ok (Continue st1)
    /\ instance_buffers st1 = instance_buffers st
    /\ default 0 (file_positions st1 !! current st)
       = default 0 (file_positions st !! current st)
    /\ iteration cfg ev2 st1 = Ok (Continue st2)
    /\ instance_buffers st2 !! current st
       = Some (buf ++ splitlines
                 (str_drop (Z.to_nat (default 0 (file_positions st !! current st)))
                    long))%list
    /\ file_positions st2 !! current st = Some (len long).
Proof.
  intros Hh Hbuf Hoff Hf1 Hf2 Hplain _ Hq1 Hs1 Hq2 Hs2 Hl1 Hl2.
  set (off := default 0 (file_positions st !! current st)) in *.
  pose proof (len_nonneg short) as Hshort.
  assert (Hread1 :
    read_new_lines (ev_world ev1) (log_path cfg (current st)) off = Ok ("", off)).
  { rewrite (read_new_lines_readable _ _ _ _ Hf1) by lia.
    rewrite str_drop_all by (unfold len in *; lia). f_equal. f_equal. lia. }
  rewrite (iteration_idle cfg ev1 st Hq1 Hs1).
  destruct (refresh_content_completes cfg (ev_world ev1) st buf r1)
    as (st1 & Hst1); [lia | exact Hbuf | fold off; lia | exact Hl1 |].
  destruct (refresh_content_effect _ _ _ _ _ _ _ Hbuf Hread1 Hst1)
    as (st1' & [= <-] & Hc1 & Hb1 & Hp1).
  simpl in Hb1. rewrite app_nil_r, (insert_id _ _ _ Hbuf) in Hb1.
  assert (Hoff1 : default 0 (file_positions st1 !! current st1) = off).
  { rewrite Hp1, Hc1, lookup_insert_eq. reflexivity. }
  assert (Hbuf1 : instance_buffers st1 !! current st1 = Some buf).
  { now rewrite Hb1, Hc1. }
  assert (Hread2 :
    read_new_lines (ev_world ev2) (log_path cfg (current st1))
      (default 0 (file_positions st1 !! current st1))
    = Ok (str_drop (Z.to_nat off) long, len long)).
  { rewrite Hoff1, Hc1, (read_new_lines_readable _ _ _ _ Hf2) by lia.
    rewrite universal_newlines_plain by (apply str_forall_drop, Hplain).
    f_equal. f_equal. lia. }
  assert (Hit2 : iteration cfg ev2 st1
                 = refresh_content cfg (ev_world ev2) st1).
  { apply iteration_idle; [exact Hq2|].
    now rewrite (is_switch_same_current cfg st st1 _ Hc1). }
  destruct (refresh_content_completes cfg (ev_world ev2) st1 buf r2)
    as (st2 & Hst2); [lia | exact Hbuf1 | rewrite Hoff1; lia | exact Hl2 |].
  destruct (refresh_content_effect _ _ _ _ _ _ _ Hbuf1 Hread2 Hst2)
    as (st2' & [= <-] & Hc2 & Hb2 & Hp2).
  exists st1, st2. split; [exact Hst1|]. split; [exact Hb1|].
  split; [now rewrite <- Hc1|]. split; [now rewrite Hit2|].
  rewrite Hb2, Hp2, Hc1. split; apply lookup_insert_eq.
Qed.

Lemma truncated_log_stalls_witness :
  exists st1 st2,
    iteration demo_config (key_event (log_world "z") (-1)) read_hello_viewer
      = Ok (Continue st1)
    /\ instance_buffers st1 = instance_buffers read_hello_viewer
    /\ iteration demo_config
         (key_event (log_world ("0123456789new" +:+ chr LF)) (-1)) st1
       = Ok (Continue st2)
    /\ instance_buffers st2 !! 1
       = Some (splitlines (demo_log +:+ hello_line) ++ ["new" +:+ chr LF])%list.
Proof.
  destruct (truncated_log_stalls demo_config read_hello_viewer
              (key_event (log_world "z") (-1))
              (key_event (log_world ("0123456789new" +:+ chr LF)) (-1))
              (splitlines (demo_log +:+ hello_line))
              "z" ("0123456789new" +:+ chr LF) 0 0)
    as (st1 & st2 & H1 & Hb1 & _ & H2 & Hb2 & _);
    try (vm_compute; reflexivity).
  - simpl. lia.
  - vm_compute. split; [reflexivity | discriminate].
  - exists st1, st2. repeat split; assumption.
Defined.

(** ** What [draw_log] puts on the screen *)

Lemma fold_clear_row_lookup (rs : list Z) (scr : window) (r : Z) :
  w_rows (fold_left clear_row rs scr) !! r
  = (if decide (r ∈ rs) then None else w_rows scr !! r)
  /\ w_reverse (fold_left clear_row rs scr) = w_reverse scr.
Proof.
  revert scr. induction rs as [|a rs IH]; intros scr; simpl.
  - split; reflexivity.
  - destruct (IH (clear_row scr a)) as [-> ->]. split; [|reflexivity]. simpl.
    destruct (decide (r ∈ rs)) as [Hin | Hnin].
    + rewrite decide_True by (apply elem_of_cons; tauto). reflexivity.
    + destruct (decide (a = r)) as [-> | Hne].
      * rewrite decide_True by (apply elem_of_cons; tauto).
        apply lookup_delete_eq.
      * rewrite decide_False.
        -- now apply lookup_delete_ne.
        -- intros Hin. apply elem_of_cons in Hin as [-> | Hin]; tauto.
Qed.

Lemma clear_log_rows_lookup (cfg : config) (scr : window) (r : Z) :
  w_rows (clear_log_rows cfg scr) !! r
  = (if decide (1 <= r < height cfg) then None else w_rows scr !! r)
  /\ w_reverse (clear_log_rows cfg scr) = w_reverse scr.
Proof.
  unfold clear_log_rows.
  destruct (fold_clear_row_lookup
              (map (fun i => log_start_row + Z.of_nat i)
                   (seq 0 (Z.to_nat (height cfg - log_start_row)))) scr r)
    as [-> ->].
  split; [|reflexivity]. unfold log_start_row.
  destruct (decide (1 <= r < height cfg)) as [Hr | Hr].
  - rewrite decide_True; [reflexivity|].
    apply list_elem_of_fmap. exists (Z.to_nat (r - 1)).
    split; [lia|]. apply elem_of_seq. lia.
  - rewrite decide_False; [reflexivity|].
    intros Hin. apply list_elem_of_fmap in Hin as (i & -> & Hi).
    apply elem_of_seq in Hi. lia.
Qed.

Lemma addstr_in_window (h w : Z) (scr : window) (r : Z) (text : string) :
  0 <= r < h ->
  fst (addstr h w scr r text)
  = {| w_rows := <[r := (text, w_reverse scr)]> (w_rows scr);
       w_reverse := w_reverse scr |}.
Proof.
  intros Hr. unfold addstr.
  destruct ((r <? 0) || (h <=? r)) eqn:E; [lia | reflexivity].
Qed.

Lemma write_lines_rows (cfg : config) (lines : list string) (i : Z)
    (scr : window) :
  0 <= i ->
  log_start_row + i + Z.of_nat (length lines) <= height cfg ->
  w_reverse (write_lines cfg i lines scr) = w_reverse scr
  /\ (forall (k : nat) line, lines !! k = Some line ->
        w_rows (write_lines cfg i lines scr) !! (1 + i + Z.of_nat k)
        = Some (shown_text cfg line, w_reverse scr))
  /\ (forall r, r < 1 + i \/ 1 + i + Z.of_nat (length lines) <= r ->
        w_rows (write_lines cfg i lines scr) !! r = w_rows scr !! r).
Proof.
  unfold log_start_row. revert i scr.
  induction lines as [|line rest IH]; intros i scr Hi Hfit; simpl.
  - split; [reflexivity|]. split; [|reflexivity]. intros k l Hk. discriminate Hk.
  - simpl in Hfit. unfold log_start_row.
    destruct (1 + i >=? height cfg) eqn:E; [lia|].
    rewrite addstr_in_window by lia.
    match goal with
    | |- context [write_lines cfg (i + 1) rest ?s] => set (scr1 := s)
    end.
    destruct (IH (i + 1) scr1 ltac:(lia) ltac:(lia)) as (Hrev & Hrows & Hframe).
    split; [exact Hrev|]. split.
    + intros [|k] l Hk; simpl in Hk.
      * injection Hk as <-. rewrite Hframe by lia.
        replace (1 + i + Z.of_nat 0) with (1 + i) by lia.
        subst scr1. simpl. apply lookup_insert_eq.
      * replace (1 + i + Z.of_nat (S k)) with (1 + (i + 1) + Z.of_nat k) by lia.
        rewrite (Hrows k l Hk). reflexivity.
    + intros r Hr. rewrite Hframe by lia. subst scr1. simpl.
      apply lookup_insert_ne. lia.
Qed.

Lemma visible_length (cfg : config) (buf : list string) :
  0 < log_height cfg ->
  Z.of_nat (length (visible cfg buf)) <= log_height cfg.
Proof.
  intros Hh. unfold visible, slice_from.
  destruct (Z.of_nat (length buf) >? log_height cfg) eqn:E; [|lia].
  destruct (- log_height cfg <? 0) eqn:E'; [|lia].
  rewrite length_drop. lia.
Qed.



(** ** Pace of the status bar *)

Lemma draw_log_status_row (cfg : config) (buf : list string) (st : viewer) :
  2 <= height cfg ->
  w_rows (stdscr (draw_log cfg buf st)) !! 0 = w_rows (stdscr st) !! 0.
Proof.
  intros Hh.
  assert (Hlen : Z.of_nat (length (visible cfg buf)) <= log_height cfg).
  { apply visible_length. unfold log_height. lia. }
  unfold log_height in Hlen.
  destruct (write_lines_rows cfg (visible cfg buf) 0
              (clear_log_rows cfg (stdscr st)) ltac:(lia)
              ltac:(unfold log_start_row; lia))
    as (_ & _ & Hframe).
  unfold draw_log. simpl. rewrite Hframe by lia.
  destruct (clear_log_rows_lookup cfg (stdscr st) 0) as [-> _].
  now rewrite decide_False by lia.
Qed.



(** ** How the viewer starts *)

Lemma load_entire_log_readable (cfg : config) (w : world) (i : Z) (st : viewer)
    (content : string) :
  w_fs w !! log_path cfg i = Some (Regular content Readable) ->
  load_entire_log cfg w i st
  = Ok (set_buffers
          (set_positions st
             (<[i := len (universal_newlines content)]> (file_positions st)))
          (<[i := splitlines (universal_newlines content)]>
             (instance_buffers st))).
Proof.
  intros Hf. unfold load_entire_log, os_path_isfile. rewrite Hf. simpl.
  rewrite (open_seek_read_readable w _ content 0 Hf ltac:(lia)). reflexivity.
Qed.

Lemma load_entire_log_skip (cfg : config) (w : world) (i : Z) (st : viewer) :
  (forall content, w_fs w !! log_path cfg i <> Some (Regular content Readable)) ->
  load_entire_log cfg w i st = Ok st.
Proof.
  intros Hf. unfold load_entire_log, os_path_isfile, open_seek_read.
  destruct (w_fs w !! log_path cfg i) as [[content [| |]|]|] eqn:E; simpl;
    try reflexivity.
  exfalso. exact (Hf content eq_refl).
Qed.

(** X6.  For a count [main] accepts, a screen of 3 rows or more, a liveness
    monitor that answers and a first log that, when it can be read, holds
    plain text, the viewer enters its loop watching instance 1, with the
    status bar on row 0 and the redraw count at 0.  Only instance 1 is
    hydrated: its buffer holds the lines of its log and its offset the
    length of the log when the log can be read, and is empty otherwise; the
    buffers of the instances 2..count are empty and they have no offset. *)
Theorem viewer_start_state (cfg : config) (w0 : world) (running : Z) :
  3 <= height cfg ->
  1 <= count cfg ->
  count_running w0 (pids_file cfg) = Ok running ->
  (forall content,
     w_fs w0 !! log_path cfg 1 = Some (Regular content Readable) ->
     plain_text content = true) ->
  exists st,
    start_curses cfg w0 = Ok st
    /\ current st = 1
    /\ status_redraw_counter st = 0
    /\ w_rows (stdscr st) !! 0
       = Some (slice_to
                 (STATUS_BAR_FORMAT running (count cfg) (count cfg - running)
                    1 (count cfg))
                 (width cfg - 1), true)
    /\ (forall i, 2 <= i <= count cfg ->
          instance_buffers st !! i = Some []
          /\ file_positions st !! i = None)
    /\ (forall content,
          w_fs w0 !! log_path cfg 1 = Some (Regular content Readable) ->
          instance_buffers st !! 1 = Some (splitlines content)
          /\ file_positions st !! 1 = Some (len content))
    /\ ((forall content,
           w_fs w0 !! log_path cfg 1 <> Some (Regular content Readable)) ->
        instance_buffers st !! 1 = Some []
        /\ file_positions st !! 1 = None).
Proof.
  intros Hh Hcount Hlive Hplain. unfold start_curses.
  rewrite (draw_status_bar_ok cfg w0 _ running ltac:(lia) Hlive). simpl.
  match goal with
  | |- context [load_entire_log cfg w0 1 ?s] => set (st1 := s)
  end.
  assert (Hrow1 : w_rows (stdscr st1) !! 0
                  = Some (slice_to
                            (STATUS_BAR_FORMAT running (count cfg)
                               (count cfg - running) 1 (count cfg))
                            (width cfg - 1), true))
    by apply lookup_insert_eq.
  destruct (w_fs w0 !! log_path cfg 1) as [[content [| |]|]|] eqn:Ef.
  1: { rewrite (load_entire_log_readable cfg w0 1 st1 content Ef).
       rewrite (universal_newlines_plain content (Hplain content eq_refl)).
       simpl. unfold getitem. rewrite lookup_insert_eq.
       cbn [bind]. eexists. split; [reflexivity|].
       split; [reflexivity|]. split; [reflexivity|].
       split; [rewrite draw_log_status_row by lia; exact Hrow1|].
       simpl. split; [|split].
       - intros i Hi. rewrite !lookup_insert_ne by lia.
         rewrite (empty_buffers_lookup (count cfg) i ltac:(lia)).
         split; [reflexivity | apply lookup_empty].
       - intros c [= <-]. split; apply lookup_insert_eq.
       - intros Hno. exfalso. exact (Hno content eq_refl). }
  all: rewrite (load_entire_log_skip cfg w0 1 st1)
         by (intros c; rewrite Ef; congruence);
       simpl; unfold getitem;
       rewrite (empty_buffers_lookup (count cfg) 1 ltac:(lia));
       cbn [bind]; eexists; (split; [reflexivity|]);
       (split; [reflexivity|]); (split; [reflexivity|]);
       (split; [rewrite draw_log_status_row by lia; exact Hrow1|]);
       simpl; (split; [|split]);
       [ intros i Hi; rewrite (empty_buffers_lookup (count cfg) i ltac:(lia));
         split; [reflexivity | apply lookup_empty]
       | intros c Hc; discriminate Hc
       | intros _; rewrite (empty_buffers_lookup (count cfg) 1 ltac:(lia));
         split; [reflexivity | apply lookup_empty] ].
Qed.

Lemma viewer_start_state_witness :
  exists st,
    start_curses demo_config demo_world = Ok st
    /\ instance_buffers st !! 1 = Some (splitlines demo_log)
    /\ instance_buffers st !! 2 = Some [].
Proof.
  destruct (viewer_start_state demo_config demo_world 0)
    as (st & Hs & _ & _ & _ & Hothers & Hfirst & _).
  - simpl. lia.
  - simpl. lia.
  - vm_compute. reflexivity.
  - intros content Hc. vm_compute in Hc. injection Hc as <-. reflexivity.
  - exists st. split; [exact Hs|]. split.
    + apply (Hfirst demo_log). vm_compute. reflexivity.
    + apply Hothers. simpl. lia.
Defined.

(** ** What the fallback viewer prints *)

Lemma fallback_follow (cfg : config) (worlds : list world) (st : fallback)
    (header prev : string) :
  fb_current st = 1 ->
  default 0 (fb_positions st !! 1) = len prev ->
  fb_stdout st = header +:+ prev ->
  log_grows (log_path cfg 1) prev worlds ->
  Forall (fun w => w_stdout_broken w = false) worlds ->
  exists st',
    fallback_loop cfg worlds st = Ok (Running st')
    /\ fb_current st' = 1
    /\ default 0 (fb_positions st' !! 1)
       = len (log_text (log_path cfg 1) prev worlds)
    /\ fb_stdout st' = header +:+ log_text (log_path cfg 1) prev worlds.
Proof.
  revert st prev.
  induction worlds as [|w worlds IH]; intros st prev Hcur Hoff Hout Hgrow Hall.
  - exists st. simpl. repeat split; assumption.
  - inversion Hall as [|? ? Hw Hrest]; subst.
    assert (Hread : exists txt next,
              read_new_lines w (log_path cfg 1) (len prev) = Ok (txt, len next)
              /\ next = prev +:+ txt
              /\ log_grows (log_path cfg 1) next worlds
              /\ log_text (log_path cfg 1) prev (w :: worlds)
                 = log_text (log_path cfg 1) next worlds).
    { simpl in Hgrow |- *.
      destruct (w_fs w !! log_path cfg 1) as [[c [| |]|]|] eqn:Ef.
      1: { destruct Hgrow as ([more ->] & Hplain & Hgrow).
           exists more, (prev +:+ more).
           rewrite plain_text_append in Hplain.
           apply andb_prop in Hplain as [_ Hmore].
           rewrite (read_new_lines_readable _ _ _ _ Ef (len_nonneg prev)).
           unfold len at 1. rewrite Nat2Z.id, str_drop_append.
           rewrite (universal_newlines_plain _ Hmore).
           repeat split; try assumption. f_equal. f_equal.
           rewrite len_append. pose proof (len_nonneg more). lia. }
      all: exists "", prev; rewrite append_empty_r;
        rewrite read_new_lines_no_data by (intros c'; rewrite Ef; congruence);
        repeat split; assumption. }
    destruct Hread as (txt & next & Hread & -> & Hgrow' & Htext).
    rewrite Htext. simpl. unfold fallback_iteration, stdout_write.
    rewrite Hcur, Hoff, Hread, Hw. simpl.
    assert (Hstep :
      (do out <- (if negb (is_empty txt) then Ok (fb_stdout st +:+ txt)
                  else Ok (fb_stdout st)) ;;
       Ok (Continue {| fb_current := 1;
                       fb_positions := <[1 := len (prev +:+ txt)]> (fb_positions st);
                       fb_stdout := out |}))
      = Ok (Continue {| fb_current := 1;
                        fb_positions := <[1 := len (prev +:+ txt)]> (fb_positions st);
                        fb_stdout := header +:+ (prev +:+ txt) |})).
    { rewrite Hout. destruct txt; simpl.
      - now rewrite !append_empty_r.
      - now rewrite append_assoc. }
    rewrite Hstep. simpl.
    match goal with
    | |- context [fallback_loop cfg worlds ?s] => set (st1 := s)
    end.
    destruct (IH st1 (prev +:+ txt)) as (st' & Hl & Hc' & Ho' & Hs');
      [reflexivity | | reflexivity | exact Hgrow' | exact Hrest | eauto].
    subst st1. simpl. now rewrite lookup_insert_eq.
Qed.

(** X7.  In fallback mode, while standard output is read, it receives the
    status line, once, and then, as long as the log of instance 1 holds
    plain text that is only appended to, exactly the text of that log:
    whatever the number of polls, each character of the log is printed
    once.  No other instance is ever read. *)
Theorem fallback_streams_log (cfg : config) (w0 : world) (worlds : list world)
    (running : Z) :
  count_running w0 (pids_file cfg) = Ok running ->
  log_grows (log_path cfg 1) "" worlds ->
  w_stdout_broken w0 = false ->
  Forall (fun w => w_stdout_broken w = false) worlds ->
  exists st,
    run_fallback cfg w0 worlds = Ok (Running st)
    /\ fb_stdout st
       = STATUS_BAR_FORMAT running (count cfg) (count cfg - running) 1
           (count cfg)
         +:+ chr LF +:+ log_text (log_path cfg 1) "" worlds
    /\ fb_current st = 1
    /\ default 0 (fb_positions st !! 1)
       = len (log_text (log_path cfg 1) "" worlds).
Proof.
  intros Hlive Hgrow Hout0 Hout.
  unfold run_fallback, start_fallback, stdout_write.
  rewrite Hlive, Hout0. simpl.
  match goal with
  | |- context [fallback_loop cfg worlds ?s] => set (st0 := s)
  end.
  destruct (fallback_follow cfg worlds st0 (fb_stdout st0) "")
    as (st & Hl & Hc & Ho & Hs);
    [reflexivity | reflexivity | now rewrite append_empty_r | exact Hgrow
    | exact Hout |].
  exists st. split; [exact Hl|]. split; [|tauto].
  rewrite Hs. subst st0. simpl. rewrite append_nil. apply append_assoc.
Qed.

Lemma fallback_streams_log_witness :
  exists st,
    run_fallback demo_config demo_world
      [log_world "x"; log_world ("x" +:+ chr LF +:+ "y")] = Ok (Running st)
    /\ fb_stdout st
       = STATUS_BAR_FORMAT 0 3 3 1 3 +:+ chr LF +:+ ("x" +:+ chr LF +:+ "y").
Proof.
  destruct (fallback_streams_log demo_config demo_world
              [log_world "x"; log_world ("x" +:+ chr LF +:+ "y")] 0)
    as (st & Hrun & Hout & _).
  - vm_compute. reflexivity.
  - vm_compute. split; [eexists; reflexivity|]. split; [reflexivity|].
    split; [eexists; reflexivity|]. split; [reflexivity | exact I].
  - reflexivity.
  - repeat constructor.
  - exists st. split; [exact Hrun|]. rewrite Hout. vm_compute. reflexivity.
Defined.

(** ** What the liveness monitor counts *)





(** ** Selecting an instance *)

(** X9.  Pressing the digit of another instance that has nothing in its buffer
    hydrates it: when its log can be read and holds plain text, the viewer
    then watches that instance with the lines of the whole log in its buffer
    and the length of the log as its offset.  The status bar is redrawn
    naming the new instance, the redraw count starts again at 0, and the
    other instances keep their buffers and offsets. *)
Theorem switch_hydrates_unread (cfg : config) (st : viewer) (ev : event)
    (d : Z) (content : string) (running : Z) :
  3 <= height cfg ->
  1 <= d <= 9 ->
  d <= count cfg ->
  d <> current st ->
  ev_getch ev = Key (ord_0 + d) ->
  instance_buffers st !! d = Some [] ->
  w_fs (ev_world ev) !! log_path cfg d = Some (Regular content Readable) ->
  plain_text content = true ->
  count_running (ev_world ev) (pids_file cfg) = Ok running ->
  exists st',
    iteration cfg ev st = Ok (Continue st')
    /\ current st' = d
    /\ instance_buffers st' !! d = Some (splitlines content)
    /\ file_positions st' !! d = Some (len content)
    /\ status_redraw_counter st' = 0
    /\ w_rows (stdscr st') !! 0
       = Some (slice_to
                 (STATUS_BAR_FORMAT running (count cfg) (count cfg - running)
                    d (count cfg))
                 (width cfg - 1), true)
    /\ (forall i, i <> d ->
          instance_buffers st' !! i = instance_buffers st !! i
          /\ file_positions st' !! i = file_positions st !! i).
Proof.
  intros Hh Hd Hcount Hne Hkey Hbuf Hf Hplain Hlive.
  rewrite (iteration_switch cfg ev st (ord_0 + d) Hkey)
    by (rewrite Hkey; first [apply is_quit_digit | apply is_switch_digit]; lia).
  replace (ord_0 + d - ord_0) with d by lia.
  unfold switch_instance. simpl. unfold getitem at 1. simpl. rewrite Hbuf.
  cbn [bind]. rewrite (load_entire_log_readable cfg _ d _ content Hf).
  rewrite (universal_newlines_plain content Hplain).
  cbn [bind].
  rewrite (draw_status_bar_ok cfg _ _ running ltac:(lia) Hlive).
  cbn [bind]. simpl. unfold getitem. rewrite lookup_insert_eq. cbn [bind].
  eexists. split; [reflexivity|].
  split; [reflexivity|]. split; [apply lookup_insert_eq|].
  split; [apply lookup_insert_eq|]. split; [reflexivity|]. split.
  - match goal with
    | |- w_rows (stdscr (set_counter (draw_log ?c ?b ?s) _)) !! 0 = _ =>
        change (w_rows (stdscr (draw_log c b s)) !! 0) with
          (w_rows (stdscr (draw_log c b s)) !! 0);
        transitivity (w_rows (stdscr s) !! 0);
        [apply (draw_log_status_row c b s); lia | apply lookup_insert_eq]
    end.
  - intros i Hi. simpl. now rewrite !lookup_insert_ne by congruence.
Qed.

Lemma switch_hydrates_unread_witness :
  exists st',
    iteration demo_config (key_event two_logs_world (ord_0 + 2)) demo_viewer
    = Ok (Continue st')
    /\ current st' = 2
    /\ instance_buffers st' !! 2 = Some [a_line].
Proof.
  destruct (switch_hydrates_unread demo_config demo_viewer
              (key_event two_logs_world (ord_0 + 2)) 2 a_line 0)
    as (st' & Hit & Hc & Hb & _); try (vm_compute; reflexivity);
    try (simpl; lia).
  exists st'. repeat split; assumption.
Defined.

(** ** Buffers only grow *)

Lemma switch_instance_keeps (cfg : config) (w : world) (idx : Z) (st : viewer)
    (l : string) (buf : list string) (c : control viewer) :
  instance_buffers st !! idx = Some (l :: buf) ->
  switch_instance cfg w idx st = Ok c ->
  exists st', c = Continue st'
              /\ instance_buffers st' !! idx = Some (l :: buf).
Proof.
  intros Hbuf. unfold switch_instance. simpl.
  unfold getitem at 1. simpl. rewrite Hbuf. simpl.
  destruct (draw_status_bar _ _ _) as [st2|e] eqn:Ed; simpl; [|discriminate].
  apply draw_status_bar_frame in Ed as (Hb & _). simpl in Hb.
  destruct (getitem _ _) as [buf2|e]; simpl; [|discriminate].
  intros [= <-]. eexists. split; [reflexivity|]. simpl. now rewrite Hb.
Qed.

Lemma iteration_extends_buffers (cfg : config) (ev : event) (st st' : viewer) :
  well_formed cfg st ->
  iteration cfg ev st = Ok (Continue st') ->
  forall i buf, instance_buffers st !! i = Some buf ->
    exists extra, instance_buffers st' !! i = Some (buf ++ extra)%list.
Proof.
  intros (Hcur & Hbufs & Hok) Hit i buf Hi.
  destruct (is_quit (ev_getch ev)) eqn:Hq.
  { rewrite (iteration_quit _ _ _ Hq) in Hit. discriminate. }
  destruct (is_switch cfg st (ev_getch ev)) eqn:Hs.
  - destruct (ev_getch ev) as [ch|] eqn:Hk; [|discriminate].
    rewrite (iteration_switch cfg ev st ch Hk) in Hit
      by (rewrite Hk; assumption).
    destruct (decide (i = ch - ord_0)) as [-> | Hne].
    + destruct buf as [|l buf].
      * destruct (switch_instance_frame _ _ _ _ _ _ Hi Hit)
          as (st1 & [= <-] & _ & _ & [b' Hb'] & _).
        exists b'. exact Hb'.
      * destruct (switch_instance_keeps _ _ _ _ _ _ _ Hi Hit)
          as (st1 & [= <-] & Hb').
        exists []. now rewrite app_nil_r.
    + unfold is_switch in Hs.
      apply andb_prop in Hs as [_ Hs]. apply andb_prop in Hs as [Hs _].
      apply andb_prop in Hs as [Hlo Hhi]. apply Z.leb_le in Hlo, Hhi.
      destruct (Hbufs (ch - ord_0) ltac:(lia)) as [buf0 Hbuf0].
      destruct (switch_instance_frame _ _ _ _ _ _ Hbuf0 Hit)
        as (st1 & [= <-] & _ & Hf & _).
      destruct (Hf i Hne) as [-> _]. exists []. now rewrite app_nil_r.
  - rewrite (iteration_idle cfg ev st Hq Hs) in Hit.
    destruct (Hbufs (current st) Hcur) as [buf0 Hbuf0].
    assert (Hpos : 0 <= default 0 (file_positions st !! current st)).
    { destruct (file_positions st !! current st) as [v|] eqn:E; simpl;
        [exact (Hok _ _ E) | lia]. }
    destruct (read_new_lines_total (ev_world ev) (log_path cfg (current st)) _ Hpos)
      as (txt & np & Hread & _).
    destruct (refresh_content_effect _ _ _ _ _ _ _ Hbuf0 Hread Hit)
      as (st1 & [= <-] & _ & Hb & _).
    rewrite Hb, lookup_insert. case_decide as Hd.
    + subst i. rewrite Hbuf0 in Hi. injection Hi as <-. eauto.
    + exists []. now rewrite app_nil_r.
Qed.

(** X10.  However long the viewer runs and whatever keys it reads, a buffer is
    only ever appended to: every line that was in the buffer of an instance
    is still there, at the same place, and lines are added at the end only.
    Nothing is evicted, reordered or rewritten. *)
Theorem buffers_append_only (cfg : config) (events : list event)
    (st st' : viewer) :
  well_formed cfg st ->
  main_loop cfg events st = Ok (Running st') ->
  forall i buf, instance_buffers st !! i = Some buf ->
    exists extra, instance_buffers st' !! i = Some (buf ++ extra)%list.
Proof.
  revert st. induction events as [|ev events IH]; intros st Hwf; simpl.
  - intros [= <-] i buf Hi. exists []. now rewrite app_nil_r.
  - destruct (iteration cfg ev st) as [[st1|code]|e] eqn:E; simpl;
      try discriminate.
    intros Hloop i buf Hi.
    destruct (iteration_extends_buffers _ _ _ _ Hwf E i buf Hi) as [x1 H1].
    destruct (IH st1 (iteration_well_formed _ _ _ _ Hwf E) Hloop i _ H1)
      as [x2 H2].
    exists (x1 ++ x2)%list. now rewrite app_assoc.
Qed.

Lemma buffers_append_only_witness :
  exists st' extra,
    main_loop demo_config
      [key_event hello_world (-1); key_event hello_world (ord_0 + 2)]
      caught_up_viewer = Ok (Running st')
    /\ instance_buffers st' !! 1 = Some (splitlines demo_log ++ extra)%list.
Proof.
  assert (Hwf : well_formed demo_config caught_up_viewer).
  { split; [simpl; lia|]. split.
    - intros i Hi. simpl in Hi.
      assert (Hcases : i = 1 \/ i = 2 \/ i = 3) by lia.
      destruct Hcases as [-> | [-> | ->]]; vm_compute; eauto.
    - intros k v. simpl. rewrite lookup_insert. case_decide.
      + intros [= <-]. vm_compute. discriminate.
      + rewrite lookup_empty. discriminate. }
  destruct (main_loop demo_config
              [key_event hello_world (-1); key_event hello_world (ord_0 + 2)]
              caught_up_viewer) as [[code|st']|e] eqn:Hloop;
    [vm_compute in Hloop; discriminate Hloop | | vm_compute in Hloop;
                                                  discriminate Hloop].
  destruct (buffers_append_only demo_config _ _ _ Hwf Hloop 1
              (splitlines demo_log)) as [extra Hextra].
  - vm_compute. reflexivity.
  - exists st', extra. split; [reflexivity | exact Hextra].
Defined.

(** ** Which exceptions can stop the viewer *)

Lemma mapM_raise {A B : Type} (f : A -> result B) (P : exn -> Prop)
    (l : list A) (e : exn) :
  (forall a e', f a = Raise e' -> P e') ->
  mapM f l = Raise e -> P e.
Proof.
  intros Hf. induction l as [|a l IH]; simpl; [discriminate|].
  destruct (f a) as [b|e'] eqn:Ea; simpl.
  - destruct (mapM f l) as [bs|e'']; simpl; [discriminate|].
    intros [= <-]. now apply IH.
  - intros [= <-]. exact (Hf a e' Ea).
Qed.

Lemma _process_exists_raises (w : world) (pid : Z) (e : exn) :
  _process_exists w pid = Raise e -> e = OverflowError.
Proof.
  unfold _process_exists, os_kill0.
  destruct ((INT_MAX <? pid) || (pid <? - INT_MAX - 1)); simpl.
  - now intros [= <-].
  - destruct (w_procs w pid); simpl; discriminate.
Qed.

Lemma count_running_raises (w : world) (pids_file : string) (e : exn) :
  count_running w pids_file = Raise e -> e = OverflowError.
Proof.
  unfold count_running.
  destruct (is_empty pids_file || negb (os_path_isfile w pids_file));
    [discriminate|].
  unfold open_seek_read.
  destruct (w_fs w !! pids_file) as [[content [| |]|]|]; simpl;
    try discriminate.
  set (text := universal_newlines content).
  change (List.filter isdigit (map strip (file_lines text)))
    with (pid_tokens text).
  rewrite mapM_py_int_tokens. simpl.
  destruct (mapM (_process_exists w) _) as [bs|e'] eqn:Em; simpl;
    [discriminate|].
  assert (He : e' = OverflowError).
  { exact (mapM_raise (_process_exists w) (fun x => x = OverflowError) _ e'
             (_process_exists_raises w) Em). }
  subst e'. simpl. now intros [= <-].
Qed.

Lemma draw_status_bar_raises (cfg : config) (w : world) (st : viewer) (e : exn) :
  2 <= height cfg ->
  draw_status_bar cfg w st = Raise e -> e = OverflowError.
Proof.
  intros Hh. destruct (count_running w (pids_file cfg)) as [running|e'] eqn:Ec.
  - rewrite (draw_status_bar_ok cfg w st running Hh Ec). discriminate.
  - unfold draw_status_bar. rewrite Ec. simpl. intros [= <-].
    exact (count_running_raises _ _ _ Ec).
Qed.

Lemma iteration_raises (cfg : config) (ev : event) (st : viewer) (e : exn) :
  2 <= height cfg ->
  well_formed cfg st ->
  iteration cfg ev st = Raise e -> e = OverflowError.
Proof.
  intros Hh (Hcur & Hbufs & Hok).
  destruct (is_quit (ev_getch ev)) eqn:Hq.
  { rewrite (iteration_quit _ _ _ Hq). discriminate. }
  destruct (is_switch cfg st (ev_getch ev)) eqn:Hs.
  - destruct (ev_getch ev) as [ch|] eqn:Hk; [|discriminate].
    rewrite (iteration_switch cfg ev st ch Hk) by (rewrite Hk; assumption).
    unfold is_switch in Hs.
    apply andb_prop in Hs as [_ Hs]. apply andb_prop in Hs as [Hs _].
    apply andb_prop in Hs as [Hlo Hhi]. apply Z.leb_le in Hlo, Hhi.
    destruct (Hbufs (ch - ord_0) ltac:(lia)) as [buf Hbuf].
    unfold switch_instance. simpl. unfold getitem at 1. simpl. rewrite Hbuf.
    cbn [bind].
    assert (Hload : exists st1,
      match buf with
      | [] => load_entire_log cfg (ev_world ev) (ch - ord_0)
                (set_current st (ch - ord_0))
      | _ :: _ => Ok (set_current st (ch - ord_0))
      end = Ok st1
      /\ current st1 = ch - ord_0
      /\ is_Some (instance_buffers st1 !! (ch - ord_0))).
    { destruct buf as [|l buf].
      - destruct (load_entire_log_effect cfg (ev_world ev) (ch - ord_0)
                    (set_current st (ch - ord_0)))
          as (st1 & Hl & Hc & _ & _ & [-> | (content & _ & Hb & _)]).
        + eexists. split; [exact Hl|]. split; [reflexivity|]. simpl. eauto.
        + exists st1. split; [exact Hl|]. split; [exact Hc|].
          rewrite Hb, lookup_insert_eq. eauto.
      - eexists. split; [reflexivity|]. split; [reflexivity|]. simpl. eauto. }
    destruct Hload as (st1 & -> & Hc1 & [b1 Hb1]). cbn [bind].
    destruct (draw_status_bar cfg (ev_world ev) st1) as [st2|e'] eqn:Ed;
      cbn [bind].
    + apply draw_status_bar_frame in Ed as (Hb & _ & Hc & _).
      unfold getitem. rewrite Hb, Hc, Hc1, Hb1. discriminate.
    + intros [= <-]. exact (draw_status_bar_raises _ _ _ _ Hh Ed).
  - rewrite (iteration_idle cfg ev st Hq Hs).
    destruct (Hbufs (current st) Hcur) as [buf Hbuf].
    assert (Hpos : 0 <= default 0 (file_positions st !! current st)).
    { destruct (file_positions st !! current st) as [v|] eqn:E; simpl;
        [exact (Hok _ _ E) | lia]. }
    destruct (read_new_lines_total (ev_world ev) (log_path cfg (current st)) _ Hpos)
      as (txt & np & Hread & _).
    unfold refresh_content. rewrite Hread. simpl.
    destruct (is_empty txt); simpl.
    + destruct (_ >=? 40); [|discriminate].
      destruct (draw_status_bar _ _ _) as [st2|e'] eqn:Ed; simpl;
        [discriminate|].
      intros [= <-]. exact (draw_status_bar_raises _ _ _ _ Hh Ed).
    + rewrite (append_lines_ok _ _ _ _ Hbuf). simpl.
      unfold getitem. rewrite lookup_insert_eq. simpl.
      destruct (_ >=? 40); [|discriminate].
      destruct (draw_status_bar _ _ _) as [st2|e'] eqn:Ed; simpl;
        [discriminate|].
      intros [= <-]. exact (draw_status_bar_raises _ _ _ _ Hh Ed).
Qed.

Lemma main_loop_raises (cfg : config) (events : list event) (st : viewer)
    (e : exn) :
  2 <= height cfg ->
  well_formed cfg st ->
  main_loop cfg events st = Raise e -> e = OverflowError.
Proof.
  intros Hh. revert st.
  induction events as [|ev events IH]; intros st Hwf; simpl; [discriminate|].
  destruct (iteration cfg ev st) as [[st1|code]|e'] eqn:E; simpl.
  - apply IH. exact (iteration_well_formed _ _ _ _ Hwf E).
  - discriminate.
  - intros [= <-]. exact (iteration_raises _ _ _ _ Hh Hwf E).
Qed.

Lemma start_curses_raises (cfg : config) (w0 : world) (e : exn) :
  2 <= height cfg -> 1 <= count cfg ->
  start_curses cfg w0 = Raise e -> e = OverflowError.
Proof.
  intros Hh Hcount. unfold start_curses.
  destruct (draw_status_bar cfg w0 (initial_viewer cfg)) as [st1|e'] eqn:Ed;
    simpl.
  - apply draw_status_bar_frame in Ed as (Hb1 & _ & Hc1 & _).
    destruct (load_entire_log_effect cfg w0 1 st1)
      as (st2 & -> & Hc2 & _ & _ & Hload). simpl.
    unfold getitem. rewrite Hc2, Hc1. simpl.
    destruct Hload as [-> | (content & _ & Hb & _)].
    + rewrite Hb1. simpl.
      rewrite (empty_buffers_lookup (count cfg) 1 ltac:(lia)). discriminate.
    + rewrite Hb, lookup_insert_eq. discriminate.
  - intros [= <-]. exact (draw_status_bar_raises _ _ _ _ Hh Ed).
Qed.

Lemma fallback_iteration_raises (cfg : config) (w : world) (st : fallback)
    (e : exn) :
  fb_positions_ok st ->
  fallback_iteration cfg w st = Raise e -> e = OSError.
Proof.
  intros Hok. unfold fallback_iteration, stdout_write.
  set (pos := default 0 (fb_positions st !! fb_current st)).
  assert (Hpos : 0 <= pos).
  { subst pos. destruct (fb_positions st !! fb_current st) as [v|] eqn:E;
      simpl; [exact (Hok _ _ E) | lia]. }
  destruct (read_new_lines_total w (log_path cfg (fb_current st)) pos Hpos)
    as (data & new_pos & -> & _).
  simpl. destruct (negb (is_empty data)); [|discriminate].
  destruct (w_stdout_broken w); simpl; [|discriminate]. now intros [= <-].
Qed.

Lemma fallback_iteration_positions (cfg : config) (w : world)
    (st st' : fallback) :
  fb_positions_ok st ->
  fallback_iteration cfg w st = Ok (Continue st') -> fb_positions_ok st'.
Proof.
  intros Hok. unfold fallback_iteration.
  set (pos := default 0 (fb_positions st !! fb_current st)).
  assert (Hpos : 0 <= pos).
  { subst pos. destruct (fb_positions st !! fb_current st) as [v|] eqn:E;
      simpl; [exact (Hok _ _ E) | lia]. }
  destruct (read_new_lines_total w (log_path cfg (fb_current st)) pos Hpos)
    as (data & new_pos & -> & Hle).
  simpl. destruct (if negb (is_empty data) then _ else _) as [out|e']; simpl;
    [|discriminate].
  intros [= <-] k v. simpl. rewrite lookup_insert. case_decide.
  - intros [= <-]. lia.
  - apply Hok.
Qed.

Lemma fallback_loop_raises (cfg : config) (worlds : list world) (st : fallback)
    (e : exn) :
  fb_positions_ok st ->
  fallback_loop cfg worlds st = Raise e -> e = OSError.
Proof.
  revert st. induction worlds as [|w worlds IH]; intros st Hok; simpl;
    [discriminate|].
  destruct (fallback_iteration cfg w st) as [[st1|code]|e'] eqn:E; simpl.
  - apply IH. exact (fallback_iteration_positions _ _ _ _ Hok E).
  - discriminate.
  - intros [= <-]. exact (fallback_iteration_raises _ _ _ _ Hok E).
Qed.

(** In the model the viewer ends with an exception only for a PID file with
    a number beyond every process id (OverflowError) and, in fallback mode,
    for a standard output that nobody reads (BrokenPipeError). *)
Lemma main_raises (inv : invocation) (events : list event) (e : exn) :
  main inv events = Raise e -> e = OverflowError \/ e = OSError.
Proof.
  unfold main.
  destruct ((count (args inv) <? 1) || (count (args inv) >? 9)) eqn:Ec;
    [discriminate|].
  apply orb_false_elim in Ec as [Ec1 Ec2].
  destruct (negb (os_path_isdir (boot inv) (log_dir (args inv))));
    [discriminate|].
  destruct (curses_present inv && stdout_isatty inv).
  - unfold run_curses. destruct (height (args inv) <? 3) eqn:Eh;
      [discriminate|].
    destruct (start_curses (args inv) (boot inv)) as [st0|e'] eqn:Es; simpl.
    + destruct (main_loop (args inv) events st0) as [[code|st]|e''] eqn:El;
        simpl; try discriminate.
      intros [= <-]. left.
      apply (main_loop_raises (args inv) events st0); [lia | | exact El].
      apply (start_curses_well_formed (args inv) (boot inv)); [lia | exact Es].
    + intros [= <-]. left.
      apply (start_curses_raises (args inv) (boot inv)); [lia | lia | exact Es].
  - unfold run_fallback.
    destruct (start_fallback (args inv) (boot inv)) as [st0|e'] eqn:Es; simpl.
    + destruct (fallback_loop (args inv) (map ev_world events) st0)
        as [[code|st]|e''] eqn:El; simpl; try discriminate.
      intros [= <-]. right.
      exact (fallback_loop_raises _ _ _ _ (start_fallback_ok _ _ _ Es) El).
    + intros [= <-]. unfold start_fallback, stdout_write in Es.
      destruct (count_running (boot inv) (pids_file (args inv)))
        as [r|e''] eqn:Er; simpl in Es.
      * destruct (w_stdout_broken (boot inv)); simpl in Es;
          [injection Es as <-; now right | discriminate].
      * injection Es as <-. left. exact (count_running_raises _ _ _ Er).
Qed.

(** X11.  Whatever the command line, the terminal, the files, the processes and
    the keys, the viewer never fails with a KeyError: each time it subscripts
    its buffers, with the watched instance or with the instance a digit
    names, that instance has a buffer. *)
Theorem main_never_raises_KeyError (inv : invocation) (events : list event) :
  main inv events <> Raise KeyError.
Proof.
  intros H. destruct (main_raises inv events KeyError H); discriminate.
Qed.

(** ** Buffers mirror their logs *)

Lemma is_prefix_refl (a : string) : is_prefix a a.
Proof. exists "". now rewrite append_empty_r. Qed.

Lemma is_prefix_trans (a b c : string) :
  is_prefix a b -> is_prefix b c -> is_prefix a c.
Proof. intros [t ->] [u ->]. exists (t +:+ u). apply append_assoc. Qed.

Lemma log_grows_cons (path prev : string) (w : world) (rest : list world) :
  log_grows path prev (w :: rest) ->
  log_grows path prev [w]
  /\ log_grows path (log_text path prev [w]) rest
  /\ log_text path prev (w :: rest) = log_text path (log_text path prev [w]) rest.
Proof.
  simpl. destruct (w_fs w !! path) as [[c [| |]|]|]; tauto.
Qed.

Lemma is_prefix_log_text (path a prev : string) (w : world) :
  is_prefix a prev -> log_grows path prev [w] ->
  is_prefix a (log_text path prev [w]).
Proof.
  intros Ha. simpl. destruct (w_fs w !! path) as [[c [| |]|]|]; try tauto.
  intros [Hc _]. exact (is_prefix_trans _ _ _ Ha Hc).
Qed.

Lemma switch_instance_target (cfg : config) (w : world) (idx : Z) (st : viewer)
    (buf : list string) (c : control viewer) :
  instance_buffers st !! idx = Some buf ->
  switch_instance cfg w idx st = Ok c ->
  exists st',
    c = Continue st'
    /\ ((instance_buffers st' !! idx = Some buf
         /\ file_positions st' !! idx = file_positions st !! idx)
        \/ (buf = []
            /\ exists content,
                 w_fs w !! log_path cfg idx = Some (Regular content Readable)
                 /\ instance_buffers st' !! idx = Some (splitlines (universal_newlines content))
                 /\ file_positions st' !! idx = Some (len (universal_newlines content)))).
Proof.
  intros Hbuf. unfold switch_instance. simpl.
  unfold getitem at 1. simpl. rewrite Hbuf. cbn [bind].
  assert (Hload : exists st1,
    match buf with
    | [] => load_entire_log cfg w idx (set_current st idx)
    | _ :: _ => Ok (set_current st idx)
    end = Ok st1
    /\ ((instance_buffers st1 !! idx = Some buf
         /\ file_positions st1 !! idx = file_positions st !! idx)
        \/ (buf = []
            /\ exists content,
                 w_fs w !! log_path cfg idx = Some (Regular content Readable)
                 /\ instance_buffers st1 !! idx = Some (splitlines (universal_newlines content))
                 /\ file_positions st1 !! idx = Some (len (universal_newlines content))))).
  { destruct buf as [|l buf].
    - destruct (load_entire_log_effect cfg w idx (set_current st idx))
        as (st1 & Hl & _ & _ & _ & [-> | (content & Hf & Hb & Hp)]).
      + eexists. split; [exact Hl|]. left. simpl. tauto.
      + exists st1. split; [exact Hl|]. right. split; [reflexivity|].
        exists content. rewrite Hb, Hp, !lookup_insert_eq. tauto.
    - eexists. split; [reflexivity|]. left. simpl. tauto. }
  destruct Hload as (st1 & -> & Hcase). cbn [bind].
  destruct (draw_status_bar cfg w st1) as [st2|e] eqn:Ed; cbn [bind];
    [|discriminate].
  apply draw_status_bar_frame in Ed as (Hb & Hp & _).
  destruct (getitem _ _) as [buf2|e]; cbn [bind]; [|discriminate].
  intros [= <-]. eexists. split; [reflexivity|]. simpl.
  rewrite Hb, Hp. exact Hcase.
Qed.

Lemma iteration_mirrors (cfg : config) (ev : event) (st st' : viewer)
    (log : Z -> string) :
  well_formed cfg st ->
  mirrors cfg st log ->
  (forall i, 1 <= i <= count cfg ->
     log_grows (log_path cfg i) (log i) [ev_world ev]) ->
  iteration cfg ev st = Ok (Continue st') ->
  mirrors cfg st' (fun i => log_text (log_path cfg i) (log i) [ev_world ev]).
Proof.
  intros (Hcur & Hbufs & Hok) Hm Hgrow Hit i buf' Hi Hb'.
  assert (Hkeep : forall buf,
            instance_buffers st !! i = Some buf ->
            instance_buffers st' !! i = Some buf ->
            file_positions st' !! i = file_positions st !! i ->
            default 0 (file_positions st' !! i) = len (String.concat "" buf)
            /\ is_prefix (String.concat "" buf)
                 (log_text (log_path cfg i) (log i) [ev_world ev])).
  { intros buf H0 H1 H2. destruct (Hm i buf Hi H0) as [Ho Hp].
    rewrite H2. split; [exact Ho|].
    exact (is_prefix_log_text _ _ _ _ Hp (Hgrow i Hi)). }
  destruct (is_quit (ev_getch ev)) eqn:Hq.
  { rewrite (iteration_quit _ _ _ Hq) in Hit. discriminate. }
  destruct (is_switch cfg st (ev_getch ev)) eqn:Hs.
  - destruct (ev_getch ev) as [ch|] eqn:Hk; [|discriminate].
    rewrite (iteration_switch cfg ev st ch Hk) in Hit
      by (rewrite Hk; assumption).
    unfold is_switch in Hs.
    apply andb_prop in Hs as [_ Hs]. apply andb_prop in Hs as [Hs _].
    apply andb_prop in Hs as [Hlo Hhi]. apply Z.leb_le in Hlo, Hhi.
    destruct (Hbufs (ch - ord_0) ltac:(lia)) as [buf0 Hbuf0].
    destruct (decide (i = ch - ord_0)) as [-> | Hne].
    + destruct (switch_instance_target _ _ _ _ _ _ Hbuf0 Hit)
        as (st1 & [= <-] & [[Hb Hp] | (-> & content & Hf & Hb & Hp)]).
      * rewrite Hb in Hb'. injection Hb' as <-. now apply Hkeep.
      * rewrite Hb in Hb'. injection Hb' as <-.
        rewrite Hp, concat_splitlines. simpl.
        pose proof (Hgrow (ch - ord_0) Hi) as Hg. simpl in Hg.
        rewrite Hf in Hg |- *. destruct Hg as (_ & Hplain & _).
        rewrite (universal_newlines_plain _ Hplain).
        split; [reflexivity | apply is_prefix_refl].
    + destruct (switch_instance_frame _ _ _ _ _ _ Hbuf0 Hit)
        as (st1 & [= <-] & _ & Hf & _).
      destruct (Hf i Hne) as [Hb Hp]. rewrite Hb in Hb'.
      apply (Hkeep buf'); [exact Hb' | now rewrite Hb | exact Hp].
  - rewrite (iteration_idle cfg ev st Hq Hs) in Hit.
    destruct (Hbufs (current st) Hcur) as [buf0 Hbuf0].
    destruct (Hm (current st) buf0 Hcur Hbuf0) as [Hoff [t Ht]].
    assert (Hpos : 0 <= default 0 (file_positions st !! current st)).
    { rewrite Hoff. apply len_nonneg. }
    destruct (read_new_lines_total (ev_world ev) (log_path cfg (current st)) _ Hpos)
      as (txt & np & Hread & _).
    destruct (refresh_content_effect _ _ _ _ _ _ _ Hbuf0 Hread Hit)
      as (st1 & [= <-] & _ & Hb & Hp).
    destruct (decide (i = current st)) as [-> | Hne].
    + rewrite Hb, lookup_insert_eq in Hb'. injection Hb' as <-.
      rewrite Hp, lookup_insert_eq. simpl.
      pose proof (Hgrow (current st) Hcur) as Hg. simpl in Hg.
      destruct (w_fs (ev_world ev) !! log_path cfg (current st))
        as [[c [| |]|]|] eqn:Ef.
      1: { destruct Hg as ([more Hc] & Hplain & _).
           rewrite (read_new_lines_readable _ _ _ _ Ef Hpos), Hoff in Hread.
           rewrite Hc, Ht, append_assoc in Hread, Hplain.
           unfold len at 1 in Hread.
           rewrite Nat2Z.id, str_drop_append in Hread.
           rewrite plain_text_append in Hplain.
           apply andb_prop in Hplain as [_ Hplain].
           rewrite (universal_newlines_plain _ Hplain) in Hread.
           injection Hread as <- <-.
           rewrite concat_app, concat_splitlines.
           rewrite Hc, Ht, append_assoc. split; [|apply is_prefix_refl].
           pose proof (len_nonneg (String.concat "" buf0 +:+ (t +:+ more))).
           rewrite len_append in *.
           pose proof (len_nonneg (t +:+ more)). lia. }
      all: rewrite read_new_lines_no_data in Hread
             by (intros c'; rewrite Ef; congruence);
           injection Hread as <- <-; simpl; rewrite app_nil_r;
           split; [exact Hoff | exists t; exact Ht].
    + rewrite Hb, lookup_insert_ne in Hb' by congruence.
      apply Hkeep; [exact Hb' | | ].
      * rewrite Hb. now rewrite lookup_insert_ne by congruence.
      * rewrite Hp. now rewrite lookup_insert_ne by congruence.
Qed.

(** X12.  As long as every log is only appended to, every buffer mirrors its log
    in every state the viewer reaches, whatever keys are pressed in whatever
    order: the buffer of each instance, joined, is exactly the first part of
    the current text of its log, and the stored offset is the length of that
    part.  So across switching, hydration and polling no character of a log
    is ever in a buffer twice, and none is left out before the offset. *)
Theorem buffers_mirror_logs (cfg : config) (events : list event)
    (st st' : viewer) (log : Z -> string) :
  well_formed cfg st ->
  mirrors cfg st log ->
  (forall i, 1 <= i <= count cfg ->
     log_grows (log_path cfg i) (log i) (map ev_world events)) ->
  main_loop cfg events st = Ok (Running st') ->
  forall i buf,
    1 <= i <= count cfg ->
    instance_buffers st' !! i = Some buf ->
    default 0 (file_positions st' !! i) = len (String.concat "" buf)
    /\ exists rest,
         log_text (log_path cfg i) (log i) (map ev_world events)
         = String.concat "" buf +:+ rest.
Proof.
  revert st log.
  induction events as [|ev events IH]; intros st log Hwf Hm Hgrow.
  - simpl. intros [= <-] i buf Hi Hb. exact (Hm i buf Hi Hb).
  - cbn [main_loop].
    destruct (iteration cfg ev st) as [[st1|code]|e] eqn:E; cbn [bind];
      try discriminate.
    intros Hloop i buf Hi Hb.
    change (map ev_world (ev :: events))
      with (ev_world ev :: map ev_world events) in *.
    assert (Hm1 : mirrors cfg st1
                    (fun i => log_text (log_path cfg i) (log i) [ev_world ev])).
    { apply (iteration_mirrors cfg ev st st1 log Hwf Hm); [|exact E].
      intros j Hj. exact (proj1 (log_grows_cons _ _ _ _ (Hgrow j Hj))). }
    destruct (log_grows_cons _ _ _ _ (Hgrow i Hi)) as (_ & _ & Htext).
    rewrite Htext.
    apply (IH st1 (fun i => log_text (log_path cfg i) (log i) [ev_world ev])
             (iteration_well_formed _ _ _ _ Hwf E) Hm1); try assumption.
    intros j Hj. exact (proj1 (proj2 (log_grows_cons _ _ _ _ (Hgrow j Hj)))).
Qed.

Lemma buffers_mirror_logs_witness :
  exists st',
    main_loop single_config
      [key_event (log_world ("x" +:+ chr LF)) (-1);
       key_event (log_world ("x" +:+ chr LF +:+ "y" +:+ chr LF)) (-1)]
      single_viewer = Ok (Running st')
    /\ forall buf,
         instance_buffers st' !! 1 = Some buf ->
         default 0 (file_positions st' !! 1) = len (String.concat "" buf).
Proof.
  assert (Hone : forall i, 1 <= i <= count single_config -> i = 1)
    by (simpl; lia).
  assert (Hwf : well_formed single_config single_viewer).
  { split; [simpl; lia|]. split.
    - intros i Hi. rewrite (Hone i Hi). vm_compute. eauto.
    - intros k v. simpl. rewrite lookup_empty. discriminate. }
  assert (Hm : mirrors single_config single_viewer (fun _ => "")).
  { intros i buf Hi. rewrite (Hone i Hi). simpl.
    rewrite lookup_singleton_eq. intros [= <-].
    split; [reflexivity | apply is_prefix_refl]. }
  destruct (main_loop single_config
              [key_event (log_world ("x" +:+ chr LF)) (-1);
               key_event (log_world ("x" +:+ chr LF +:+ "y" +:+ chr LF)) (-1)]
              single_viewer) as [[code|st']|e] eqn:Hloop;
    [vm_compute in Hloop; discriminate Hloop | | vm_compute in Hloop;
                                                  discriminate Hloop].
  exists st'. split; [reflexivity|]. intros buf Hb.
  refine (proj1 (buffers_mirror_logs single_config _ single_viewer st'
                   (fun _ => "") Hwf Hm _ Hloop 1 buf _ Hb)).
  - intros i Hi. rewrite (Hone i Hi). vm_compute.
    split; [eexists; reflexivity|]. split; [reflexivity|].
    split; [eexists; reflexivity|]. split; [reflexivity | exact I].
  - simpl. lia.
Defined.

(** ** Offsets and reachable states *)

Lemma splitlines_nil (s : string) : splitlines s = [] -> s = "".
Proof.
  intros H. rewrite <- (concat_splitlines s), H. reflexivity.
Qed.

Lemma iteration_offsets (cfg : config) (ev : event) (st st' : viewer) :
  well_formed cfg st ->
  unread_at_zero st ->
  iteration cfg ev st = Ok (Continue st') ->
  unread_at_zero st'
  /\ forall i, default 0 (file_positions st !! i)
               <= default 0 (file_positions st' !! i).
Proof.
  intros (Hcur & Hbufs & Hok) Hz Hit.
  destruct (is_quit (ev_getch ev)) eqn:Hq.
  { rewrite (iteration_quit _ _ _ Hq) in Hit. discriminate. }
  destruct (is_switch cfg st (ev_getch ev)) eqn:Hs.
  - destruct (ev_getch ev) as [ch|] eqn:Hk; [|discriminate].
    rewrite (iteration_switch cfg ev st ch Hk) in Hit
      by (rewrite Hk; assumption).
    unfold is_switch in Hs.
    apply andb_prop in Hs as [_ Hs]. apply andb_prop in Hs as [Hs _].
    apply andb_prop in Hs as [Hlo Hhi]. apply Z.leb_le in Hlo, Hhi.
    destruct (Hbufs (ch - ord_0) ltac:(lia)) as [buf0 Hbuf0].
    destruct (switch_instance_frame _ _ _ _ _ _ Hbuf0 Hit)
      as (st1 & [= <-] & _ & Hf & _).
    destruct (switch_instance_target _ _ _ _ _ _ Hbuf0 Hit)
      as (st1 & [= <-] & Hcase).
    split.
    + intros i Hi. destruct (decide (i = ch - ord_0)) as [-> | Hne].
      * destruct Hcase as [[Hb Hp] | (-> & content & _ & Hb & Hp)].
        -- rewrite Hp. apply Hz. congruence.
        -- rewrite Hb in Hi. injection Hi as Hi.
           apply splitlines_nil in Hi. rewrite Hp, Hi. reflexivity.
      * destruct (Hf i Hne) as [Hb Hp]. rewrite Hp. apply Hz. congruence.
    + intros i. destruct (decide (i = ch - ord_0)) as [-> | Hne].
      * destruct Hcase as [[Hb Hp] | (-> & content & _ & Hb & Hp)].
        -- rewrite Hp. lia.
        -- rewrite (Hz _ Hbuf0), Hp. simpl. apply len_nonneg.
      * destruct (Hf i Hne) as [_ ->]. lia.
  - rewrite (iteration_idle cfg ev st Hq Hs) in Hit.
    destruct (Hbufs (current st) Hcur) as [buf0 Hbuf0].
    assert (Hpos : 0 <= default 0 (file_positions st !! current st)).
    { destruct (file_positions st !! current st) as [v|] eqn:E; simpl;
        [exact (Hok _ _ E) | lia]. }
    destruct (read_new_lines_total (ev_world ev) (log_path cfg (current st)) _ Hpos)
      as (txt & np & Hread & Hle).
    destruct (refresh_content_effect _ _ _ _ _ _ _ Hbuf0 Hread Hit)
      as (st1 & [= <-] & _ & Hb & Hp).
    split.
    + intros i Hi. rewrite Hb, lookup_insert in Hi. rewrite Hp, lookup_insert.
      case_decide as Hd.
      * subst i. injection Hi as Hi. apply app_eq_nil in Hi as [-> Htxt].
        apply splitlines_nil in Htxt. subst txt. simpl.
        pose proof (Hz _ Hbuf0) as H0. rewrite H0 in Hread.
        destruct (w_fs (ev_world ev) !! log_path cfg (current st))
          as [[c [| |]|]|] eqn:Ef.
        1: { rewrite (read_new_lines_readable (ev_world ev) _ c 0 Ef
                         ltac:(lia)) in Hread.
             simpl in Hread. injection Hread as Hc <-.
             apply universal_newlines_empty in Hc. subst c. reflexivity. }
        all: rewrite read_new_lines_no_data in Hread
               by (intros c'; rewrite Ef; congruence);
             now injection Hread as <-.
      * now apply Hz.
    + intros i. rewrite Hp, lookup_insert. case_decide as Hd; [|lia].
      subst i. simpl. exact Hle.
Qed.

(** X13.  From the state in which the viewer enters its loop, whatever keys are
    read and whatever happens to the files (also when a log is truncated or
    replaced), the stored offset of an instance never moves backwards. *)
Theorem offsets_never_decrease (cfg : config) (events : list event)
    (st st' : viewer) :
  well_formed cfg st ->
  (forall i, instance_buffers st !! i = Some [] ->
             default 0 (file_positions st !! i) = 0) ->
  main_loop cfg events st = Ok (Running st') ->
  forall i, default 0 (file_positions st !! i)
            <= default 0 (file_positions st' !! i).
Proof.
  revert st. induction events as [|ev events IH]; intros st Hwf Hz; simpl.
  - intros [= <-] i. lia.
  - destruct (iteration cfg ev st) as [[st1|code]|e] eqn:E; simpl;
      try discriminate.
    intros Hloop i.
    destruct (iteration_offsets cfg ev st st1 Hwf Hz E) as [Hz1 Hle].
    specialize (IH st1 (iteration_well_formed _ _ _ _ Hwf E) Hz1 Hloop i).
    specialize (Hle i). lia.
Qed.

Lemma offsets_never_decrease_witness :
  exists st',
    main_loop single_config
      [key_event (log_world "0123456789") (-1); key_event (log_world "z") (-1)]
      single_viewer = Ok (Running st')
    /\ 0 <= default 0 (file_positions st' !! 1).
Proof.
  destruct (main_loop single_config
              [key_event (log_world "0123456789") (-1);
               key_event (log_world "z") (-1)]
              single_viewer) as [[code|st']|e] eqn:Hloop;
    [vm_compute in Hloop; discriminate Hloop | | vm_compute in Hloop;
                                                  discriminate Hloop].
  exists st'. split; [reflexivity|].
  refine (offsets_never_decrease single_config _ single_viewer st' _ _ Hloop 1).
  - split; [simpl; lia|]. split.
    + intros i Hi. simpl in Hi. assert (i = 1) as -> by lia. vm_compute. eauto.
    + intros k v. simpl. rewrite lookup_empty. discriminate.
  - intros i _. simpl. now rewrite lookup_empty.
Defined.

(** X14.  For a count [main] accepts, every state the interactive viewer reaches,
    whatever keys it reads and whatever happens to the files, watches one of
    the instances 1..count, has a buffer for each of them and holds no
    negative offset. *)
Theorem reachable_states_well_formed (cfg : config) (w0 : world)
    (events : list event) (st0 st : viewer) :
  1 <= count cfg ->
  start_curses cfg w0 = Ok st0 ->
  main_loop cfg events st0 = Ok (Running st) ->
  1 <= current st <= count cfg
  /\ (forall i, 1 <= i <= count cfg ->
        exists buf, instance_buffers st !! i = Some buf)
  /\ (forall i off, file_positions st !! i = Some off -> 0 <= off).
Proof.
  intros Hcount Hstart Hloop.
  exact (main_loop_well_formed cfg events st0 st
           (start_curses_well_formed cfg w0 st0 Hcount Hstart) Hloop).
Qed.

Lemma reachable_states_well_formed_witness :
  exists st0 st,
    start_curses demo_config demo_world = Ok st0
    /\ main_loop demo_config [key_event demo_world (ord_0 + 3)] st0
       = Ok (Running st)
    /\ 1 <= current st <= 3.
Proof.
  destruct (start_curses demo_config demo_world) as [st0|e] eqn:Hs;
    [|vm_compute in Hs; discriminate Hs].
  assert (Hsome : exists st,
            main_loop demo_config [key_event demo_world (ord_0 + 3)] st0
            = Ok (Running st)).
  { vm_compute in Hs. injection Hs as <-. eexists. vm_compute. reflexivity. }
  destruct Hsome as [st Hloop].
  exists st0, st. split; [reflexivity|]. split; [exact Hloop|].
  apply (reachable_states_well_formed demo_config demo_world
           [key_event demo_world (ord_0 + 3)] st0 st); [simpl; lia | | exact Hloop].
  exact Hs.
Defined.

(** * Contact names *)

Lemma findall_runs_concat (p : N -> bool) (s : ustr) :
  List.concat (findall_runs p s) = List.filter p s.
Proof.
  induction s as [|c s IH]; [reflexivity|].
  cbn [findall_runs List.filter]. destruct (p c) eqn:Ec; [|exact IH].
  destruct s as [|c' s']; [reflexivity|].
  destruct (p c') eqn:Ec'.
  - destruct (findall_runs p (c' :: s')) as [|r rs] eqn:Er.
    + simpl in IH. rewrite Ec' in IH. discriminate IH.
    + simpl in IH |- *. rewrite <- IH. reflexivity.
  - change (List.concat ([c] :: findall_runs p (c' :: s')))
      with (c :: List.concat (findall_runs p (c' :: s'))).
    now rewrite IH.
Qed.

Lemma findall_runs_nil (p : N -> bool) (s : ustr) :
  findall_runs p s = [] -> List.filter p s = [].
Proof. intros H. rewrite <- findall_runs_concat, H. reflexivity. Qed.

Lemma sub_runs_delete (p : N -> bool) (s : ustr) :
  sub_runs p [] s = List.filter (fun c => negb (p c)) s.
Proof.
  induction s as [|c s IH]; [reflexivity|].
  cbn [sub_runs List.filter]. destruct (p c) eqn:Ec; simpl.
  - destruct s as [|c' s']; [reflexivity|].
    destruct (p c') eqn:Ec'; exact IH.
  - now rewrite IH.
Qed.

Lemma alnum_not_uspace (c : N) : is_alnum c = true -> is_uspace c = false.
Proof.
  unfold is_alnum, is_uspace. intros H.
  apply not_true_is_false. intros H'.
  rewrite !orb_true_iff, !andb_true_iff, !N.leb_le in H.
  rewrite !orb_true_iff, !andb_true_iff, !N.leb_le, !N.eqb_eq in H'.
  lia.
Qed.

Lemma extract_username_filter (name : option ustr) :
  extract_username name
  = match name with
    | None => None
    | Some s =>
        match List.filter is_alnum s with
        | [] => None
        | u => Some u
        end
    end.
Proof.
  destruct name as [[|c s]|]; try reflexivity.
  unfold extract_username.
  destruct (findall_runs is_alnum (c :: s)) as [|r rs] eqn:Er.
  - now rewrite (findall_runs_nil _ _ Er).
  - rewrite <- Er, findall_runs_concat.
    destruct (List.filter is_alnum (c :: s)); reflexivity.
Qed.

Lemma filter_filter_same {A : Type} (p : A -> bool) (l : list A) :
  List.filter p (List.filter p l) = List.filter p l.
Proof.
  induction l as [|a l IH]; [reflexivity|]. simpl.
  destruct (p a) eqn:E; simpl; rewrite ?E, IH; reflexivity.
Qed.

Lemma extract_username_nonempty (name : option ustr) (u : ustr) :
  extract_username name = Some u ->
  u <> [] /\ Forall (fun c => is_alnum c = true) u.
Proof.
  rewrite extract_username_filter. destruct name as [s|];
    [|discriminate].
  destruct (List.filter is_alnum s) as [|a l] eqn:E; [discriminate|].
  intros [= <-]. split; [discriminate|].
  rewrite <- E. apply List.Forall_forall. intros x Hx.
  apply List.filter_In in Hx. tauto.
Qed.

(** X15.  The username of a contact name is made of exactly the English letters
    and the digits of the name, in their order, whatever stands between
    them; there is no username ([None]) exactly when the name is missing or
    has no English letter and no digit.  A username is its own username. *)
Theorem username_is_letters_and_digits (name : option ustr) :
  extract_username name
  = match name with
    | None => None
    | Some s =>
        match List.filter is_alnum s with
        | [] => None
        | u => Some u
        end
    end
  /\ (extract_username name = None <->
      match name with
      | None => True
      | Some s => Forall (fun c => is_alnum c = false) s
      end)
  /\ (forall u, extract_username name = Some u ->
        u <> [] /\ Forall (fun c => is_alnum c = true) u)
  /\ extract_username (extract_username name) = extract_username name.
Proof.
  assert (Hnone : forall s : ustr,
            List.filter is_alnum s = [] <->
            Forall (fun c => is_alnum c = false) s).
  { induction s as [|c s IH]; simpl.
    - split; [constructor | reflexivity].
    - destruct (is_alnum c) eqn:E.
      + split; [discriminate|]. intros H. inversion H; congruence.
      + rewrite IH. split; [now constructor | intros H; now inversion H]. }
  split; [apply extract_username_filter|]. split; [|split].
  - rewrite extract_username_filter. destruct name as [s|]; [|tauto].
    rewrite <- Hnone. destruct (List.filter is_alnum s); split; congruence.
  - intros u. rewrite extract_username_filter. destruct name as [s|];
      [|discriminate].
    destruct (List.filter is_alnum s) as [|a l] eqn:E; [discriminate|].
    intros [= <-]. split; [discriminate|].
    rewrite <- E. apply List.Forall_forall. intros x Hx.
    apply List.filter_In in Hx. tauto.
  - rewrite !extract_username_filter. destruct name as [s|]; [|reflexivity].
    destruct (List.filter is_alnum s) as [|a l] eqn:E; [reflexivity|].
    rewrite <- E, filter_filter_same, E. reflexivity.
Qed.

Lemma username_is_letters_and_digits_witness :
  extract_username (Some (arabic_name ++ ustr_of " Ahmed 123")%list)
  = Some (ustr_of "Ahmed123").
Proof.
  rewrite (proj1 (username_is_letters_and_digits
                    (Some (arabic_name ++ ustr_of " Ahmed 123")%list))).
  reflexivity.
Defined.

Lemma sub_runs_Forall (P : N -> Prop) (p : N -> bool) (repl s : ustr) :
  Forall P repl -> Forall P s -> Forall P (sub_runs p repl s).
Proof.
  intros Hrepl. induction s as [|c s IH]; intros Hs; [constructor|].
  inversion Hs as [|? ? Hc Hs']; subst. cbn [sub_runs].
  destruct (p c).
  - destruct s as [|c' s']; [exact Hrepl|].
    destruct (p c'); [now apply IH|].
    apply Forall_app. split; [exact Hrepl | now apply IH].
  - constructor; [exact Hc | now apply IH].
Qed.

Lemma squeeze_keeps_text (s : ustr) :
  List.filter not_uspace (sub_runs is_uspace [32%N] s)
  = List.filter not_uspace s.
Proof.
  induction s as [|c s IH]; [reflexivity|].
  cbn [sub_runs List.filter]. unfold not_uspace at 2.
  destruct (is_uspace c) eqn:Ec; simpl.
  - destruct s as [|c' s']; [reflexivity|].
    destruct (is_uspace c') eqn:Ec'; [exact IH|].
    simpl. exact IH.
  - unfold not_uspace at 1. rewrite Ec. simpl. now rewrite IH.
Qed.

Lemma squeeze_spaces (s : ustr) :
  Forall (fun c => is_uspace c = true -> c = 32%N)
    (sub_runs is_uspace [32%N] s).
Proof.
  induction s as [|c s IH]; [constructor|]. cbn [sub_runs].
  destruct (is_uspace c) eqn:Ec.
  - destruct s as [|c' s']; [repeat constructor|].
    destruct (is_uspace c'); [exact IH|].
    constructor; [reflexivity | exact IH].
  - constructor; [congruence | exact IH].
Qed.

Lemma ulstrip_Forall (P : N -> Prop) (s : ustr) :
  Forall P s -> Forall P (ulstrip s).
Proof.
  induction 1 as [|c s Hc Hs IH]; simpl; [constructor|].
  destruct (is_uspace c); [exact IH | now constructor].
Qed.

Lemma urstrip_Forall (P : N -> Prop) (s : ustr) :
  Forall P s -> Forall P (urstrip s).
Proof.
  induction 1 as [|c s Hc Hs IH]; simpl; [constructor|].
  destruct (urstrip s) as [|a r].
  - destruct (is_uspace c); repeat constructor. exact Hc.
  - now constructor.
Qed.

Lemma ulstrip_keeps_text (s : ustr) :
  List.filter not_uspace (ulstrip s) = List.filter not_uspace s.
Proof.
  induction s as [|c s IH]; [reflexivity|]. simpl. unfold not_uspace at 2.
  destruct (is_uspace c) eqn:Ec; simpl; [exact IH|].
  unfold not_uspace at 1. now rewrite Ec.
Qed.

Lemma urstrip_keeps_text (s : ustr) :
  List.filter not_uspace (urstrip s) = List.filter not_uspace s.
Proof.
  induction s as [|c s IH]; [reflexivity|]. simpl.
  destruct (urstrip s) as [|a r].
  - simpl in IH. rewrite <- IH. unfold not_uspace.
    destruct (is_uspace c) eqn:Ec; simpl; [reflexivity|].
    unfold not_uspace. now rewrite Ec.
  - simpl. simpl in IH. now rewrite IH.
Qed.

Lemma ulstrip_head (s : ustr) (c : N) :
  head (ulstrip s) = Some c -> is_uspace c = false.
Proof.
  induction s as [|a s IH]; simpl; [discriminate|].
  destruct (is_uspace a) eqn:Ea; [exact IH|]. simpl. congruence.
Qed.

Lemma urstrip_head (s : ustr) (c : N) :
  head (urstrip s) = Some c -> head s = Some c.
Proof.
  destruct s as [|a s]; simpl; [discriminate|].
  destruct (urstrip s) as [|b r].
  - destruct (is_uspace a); [discriminate | exact id].
  - exact id.
Qed.

Lemma urstrip_last (s : ustr) (c : N) :
  last (urstrip s) = Some c -> is_uspace c = false.
Proof.
  induction s as [|a s IH]; simpl; [discriminate|].
  destruct (urstrip s) as [|b r].
  - destruct (is_uspace a) eqn:Ea; [discriminate|]. simpl. congruence.
  - exact IH.
Qed.

Lemma split_name_and_username_eq (s : ustr) :
  s <> [] ->
  split_name_and_username (Some s)
  = match extract_username (Some s) with
    | None | Some [] => (Some s, None)
    | Some username =>
        (Some (let n := ustrip (sub_runs is_uspace [32%N]
                                  (sub_runs is_alnum [] s)) in
               match n with
               | [] => s
               | _ :: _ => n
               end),
         Some username)
    end.
Proof. destruct s as [|c s]; [congruence | reflexivity]. Qed.

(** X16.  [split_name_and_username] returns as its second component the username
    of the name.  Its first component is the name itself when the name has
    no username, and also when nothing but English letters, digits and white
    space is in the name (the username is then still part of it).  In every
    other case the first component has no English letter and no digit, keeps
    all other characters of the name that are not white space, in their
    order, neither begins nor ends with white space, and has no white space
    character but the plain space. *)
Theorem split_name_parts (s : ustr) :
  s <> [] ->
  exists name,
    split_name_and_username (Some s) = (Some name, extract_username (Some s))
    /\ (extract_username (Some s) = None -> name = s)
    /\ (List.filter is_kept s = [] -> name = s)
    /\ (extract_username (Some s) <> None -> List.filter is_kept s <> [] ->
        Forall (fun c => is_alnum c = false) name
        /\ List.filter not_uspace name = List.filter is_kept s
        /\ (forall c, head name = Some c -> is_uspace c = false)
        /\ (forall c, last name = Some c -> is_uspace c = false)
        /\ Forall (fun c => is_uspace c = true -> c = 32%N) name).
Proof.
  intros Hs.
  set (n := ustrip (sub_runs is_uspace [32%N] (sub_runs is_alnum [] s))).
  assert (Htext : List.filter not_uspace n = List.filter is_kept s).
  { subst n. unfold ustrip.
    rewrite urstrip_keeps_text, ulstrip_keeps_text, squeeze_keeps_text,
      sub_runs_delete.
    clear. induction s as [|c s IH]; [reflexivity|]. simpl.
    unfold is_kept at 1. destruct (is_alnum c); simpl; [exact IH|].
    destruct (not_uspace c) eqn:E; unfold not_uspace in E; rewrite E; simpl;
      now rewrite IH. }
  rewrite (split_name_and_username_eq s Hs). cbv zeta. fold n.
  destruct (extract_username (Some s)) as [[|u0 u]|] eqn:Eu.
  - exfalso.
    destruct (extract_username_nonempty (Some s) [] Eu). congruence.
  - destruct n as [|a n'] eqn:En.
    + exists s. split; [reflexivity|]. split; [discriminate|].
      split; [reflexivity|]. intros _ Hk. exfalso. apply Hk.
      rewrite <- Htext. reflexivity.
    + exists (a :: n'). split; [reflexivity|]. split; [discriminate|]. split.
      * intros Hk. rewrite Hk in Htext.
        assert (Ha : is_uspace a = false).
        { apply (ulstrip_head (sub_runs is_uspace [32%N] (sub_runs is_alnum [] s))).
          apply urstrip_head. fold (ustrip (sub_runs is_uspace [32%N]
                                              (sub_runs is_alnum [] s))).
          fold n. rewrite En. reflexivity. }
        simpl in Htext. unfold not_uspace in Htext at 1. rewrite Ha in Htext.
        discriminate Htext.
      * intros _ _. rewrite <- En. split; [|split; [|split; [|split]]].
        -- subst n. unfold ustrip. apply urstrip_Forall, ulstrip_Forall.
           apply sub_runs_Forall; [repeat constructor|].
           rewrite sub_runs_delete. apply List.Forall_forall. intros x Hx.
           apply List.filter_In in Hx. now apply negb_true_iff.
        -- rewrite En. exact Htext.
        -- intros c Hc.
           apply (ulstrip_head (sub_runs is_uspace [32%N] (sub_runs is_alnum [] s))).
           apply urstrip_head. exact Hc.
        -- intros c Hc. subst n. unfold ustrip in Hc.
           exact (urstrip_last _ _ Hc).
        -- subst n. unfold ustrip. apply urstrip_Forall, ulstrip_Forall.
           apply squeeze_spaces.
  - exists s. split; [reflexivity|]. split; [reflexivity|].
    split; [reflexivity|]. intros H. congruence.
Qed.

Lemma split_name_parts_witness :
  split_name_and_username (Some (arabic_name ++ ustr_of " Ahmed123")%list)
  = (Some arabic_name, Some (ustr_of "Ahmed123")).
Proof.
  destruct (split_name_parts (arabic_name ++ ustr_of " Ahmed123")%list)
    as (name & Heq & _).
  - discriminate.
  - pose proof Heq as Hname. vm_compute in Hname. injection Hname as <-.
    exact Heq.
Defined.
